(** * Shockbliss backend: configuration, logging, routing and the
      order/payment lifecycle

    A shallow embedding of the Go sources of the Shockbliss backend
    ([internal/config/config.go], [pkg/logger/logger.go], [main.go]) and of the
    order/payment coordinator described by the design document, followed by
    the properties proved about them. *)

From Stdlib Require Import ZArith String Ascii List Bool Lia DecimalString.
From stdpp Require Import base option gmap strings list.

Local Open Scope Z_scope.
Local Open Scope string_scope.

(** ** Go values shared by the packages *)

(** A Go [error] is identified with its message ([err.Error()]). *)
Definition error : Type := string.

(** [fmt.Errorf] with a trailing [%w] verb: the wrapped message is appended. *)
Definition Errorf_w (prefix : string) (err : error) : error := prefix +:+ err.

(** Arguments handed to [fmt.Printf]. *)
Inductive fmt_arg : Type :=
| ArgString (s : string)
| ArgBool (b : bool)
| ArgInt (n : Z)
| ArgDurationString (d : Z)   (* the text of [d.String()] *)
| ArgError (e : error).

(** One call of [fmt.Printf]: the format and its arguments. *)
Record printf_call : Type := Printf {
  pf_format : string;
  pf_args : list fmt_arg
}.

(** Code that writes to standard output: the result and the calls made. *)
Definition IO (A : Type) : Type := A * list printf_call.

#[global] Instance IO_ret : MRet IO := fun A (a : A) => (a, []).

#[global] Instance IO_bind : MBind IO := fun A B (k : A -> IO B) (m : IO A) =>
  let '(a, w1) := m in
  let '(b, w2) := k a in
  (b, (w1 ++ w2)%list).

Definition ret {A} (a : A) : IO A := mret a.

(** The line feed that Go writes as [\n] inside a string literal. *)
Definition LF : string := String (ascii_of_nat 10) EmptyString.

Definition fmt_Printf (format : string) (args : list fmt_arg) : IO unit :=
  (tt, [Printf format args]).

(** The result of a Go function that returns a pointer and an [error] with
    exactly one of the two set. *)
Inductive result (A : Type) : Type :=
| Ok (a : A)
| Err (e : error).
Arguments Ok {A} a.
Arguments Err {A} e.

(** The functions of Go's standard library that the configuration loader
    calls.  Each parser returns the pair [(value, err)] as in Go. *)
Class GoStd : Type := {
  strconv_ParseBool : string -> bool * option error;
  strconv_Atoi : string -> Z * option error;
  time_ParseDuration : string -> Z * option error;
  strings_Split : string -> string -> list string;
  strings_TrimSpace : string -> string
}.

(** ** Package [config] *)
Module config.

(** [time.Duration] counts nanoseconds. *)
Definition Duration : Type := Z.
Definition Nanosecond : Duration := 1.
Definition Microsecond : Duration := 1000 * Nanosecond.
Definition Millisecond : Duration := 1000 * Microsecond.
Definition Second : Duration := 1000 * Millisecond.
Definition Minute : Duration := 60 * Second.
Definition Hour : Duration := 60 * Minute.

Record PaytrailT : Type := mkPaytrail {
  MerchantID : string;
  SecretKey : string;
  BaseURL : string;
  CallbackURL : string;
  SuccessURL : string;
  CancelURL : string
}.

Record KongT : Type := mkKong {
  InternalAuth : string;
  AllowedIPs : list string;
  AdminAPIURL : string;
  ServiceURL : string
}.

Record JWTT : Type := mkJWT {
  Secret : string;
  AccessTokenExpiry : Duration;
  RefreshTokenExpiry : Duration
}.

Record Config : Type := mkConfig {
  Port : string;
  Environment : string;
  DebugMode : bool;
  DatabaseURL : string;
  MaxConnections : Z;
  Timeout : Duration;
  Paytrail : PaytrailT;
  Kong : KongT;
  JWT : JWTT
}.

(** [&Config{}]: every field has Go's zero value. *)
Definition zeroConfig : Config :=
  mkConfig "" "" false "" 0 0
           (mkPaytrail "" "" "" "" "" "")
           (mkKong "" [] "" "")
           (mkJWT "" 0 0).

(** Field assignments [cfg.F = v]. *)
Definition set_Port (v : string) (c : Config) : Config :=
  mkConfig v (Environment c) (DebugMode c) (DatabaseURL c) (MaxConnections c)
           (Timeout c) (Paytrail c) (Kong c) (JWT c).
Definition set_Environment (v : string) (c : Config) : Config :=
  mkConfig (Port c) v (DebugMode c) (DatabaseURL c) (MaxConnections c)
           (Timeout c) (Paytrail c) (Kong c) (JWT c).
Definition set_DebugMode (v : bool) (c : Config) : Config :=
  mkConfig (Port c) (Environment c) v (DatabaseURL c) (MaxConnections c)
           (Timeout c) (Paytrail c) (Kong c) (JWT c).
Definition set_DatabaseURL (v : string) (c : Config) : Config :=
  mkConfig (Port c) (Environment c) (DebugMode c) v (MaxConnections c)
           (Timeout c) (Paytrail c) (Kong c) (JWT c).
Definition set_MaxConnections (v : Z) (c : Config) : Config :=
  mkConfig (Port c) (Environment c) (DebugMode c) (DatabaseURL c) v
           (Timeout c) (Paytrail c) (Kong c) (JWT c).
Definition set_Timeout (v : Duration) (c : Config) : Config :=
  mkConfig (Port c) (Environment c) (DebugMode c) (DatabaseURL c)
           (MaxConnections c) v (Paytrail c) (Kong c) (JWT c).
Definition set_Paytrail (v : PaytrailT) (c : Config) : Config :=
  mkConfig (Port c) (Environment c) (DebugMode c) (DatabaseURL c)
           (MaxConnections c) (Timeout c) v (Kong c) (JWT c).
Definition set_Kong (v : KongT) (c : Config) : Config :=
  mkConfig (Port c) (Environment c) (DebugMode c) (DatabaseURL c)
           (MaxConnections c) (Timeout c) (Paytrail c) v (JWT c).
Definition set_JWT (v : JWTT) (c : Config) : Config :=
  mkConfig (Port c) (Environment c) (DebugMode c) (DatabaseURL c)
           (MaxConnections c) (Timeout c) (Paytrail c) (Kong c) v.

Definition set_MerchantID (v : string) (p : PaytrailT) : PaytrailT :=
  mkPaytrail v (SecretKey p) (BaseURL p) (CallbackURL p) (SuccessURL p) (CancelURL p).
Definition set_SecretKey (v : string) (p : PaytrailT) : PaytrailT :=
  mkPaytrail (MerchantID p) v (BaseURL p) (CallbackURL p) (SuccessURL p) (CancelURL p).
Definition set_BaseURL (v : string) (p : PaytrailT) : PaytrailT :=
  mkPaytrail (MerchantID p) (SecretKey p) v (CallbackURL p) (SuccessURL p) (CancelURL p).
Definition set_CallbackURL (v : string) (p : PaytrailT) : PaytrailT :=
  mkPaytrail (MerchantID p) (SecretKey p) (BaseURL p) v (SuccessURL p) (CancelURL p).
Definition set_SuccessURL (v : string) (p : PaytrailT) : PaytrailT :=
  mkPaytrail (MerchantID p) (SecretKey p) (BaseURL p) (CallbackURL p) v (CancelURL p).
Definition set_CancelURL (v : string) (p : PaytrailT) : PaytrailT :=
  mkPaytrail (MerchantID p) (SecretKey p) (BaseURL p) (CallbackURL p) (SuccessURL p) v.

Definition set_InternalAuth (v : string) (k : KongT) : KongT :=
  mkKong v (AllowedIPs k) (AdminAPIURL k) (ServiceURL k).
Definition set_AllowedIPs (v : list string) (k : KongT) : KongT :=
  mkKong (InternalAuth k) v (AdminAPIURL k) (ServiceURL k).
Definition set_AdminAPIURL (v : string) (k : KongT) : KongT :=
  mkKong (InternalAuth k) (AllowedIPs k) v (ServiceURL k).
Definition set_ServiceURL (v : string) (k : KongT) : KongT :=
  mkKong (InternalAuth k) (AllowedIPs k) (AdminAPIURL k) v.

Definition set_Secret (v : string) (j : JWTT) : JWTT :=
  mkJWT v (AccessTokenExpiry j) (RefreshTokenExpiry j).
Definition set_AccessTokenExpiry (v : Duration) (j : JWTT) : JWTT :=
  mkJWT (Secret j) v (RefreshTokenExpiry j).
Definition set_RefreshTokenExpiry (v : Duration) (j : JWTT) : JWTT :=
  mkJWT (Secret j) (AccessTokenExpiry j) v.

(** The process environment.  [os.Getenv] returns the empty string for a
    variable that is not set. *)
Definition os_Getenv (env : gmap string string) (key : string) : string :=
  default "" (env !! key).

Section WithStd.
Context `{Std : GoStd}.
Variable env : gmap string string.

Definition getEnv (key defaultValue : string) : string :=
  let value := os_Getenv env key in
  if negb (value =? "") then value else defaultValue.

Definition getEnvAsBool (key : string) (defaultValue : bool) : IO bool :=
  let strValue := getEnv key "" in
  if strValue =? "" then ret defaultValue
  else
    let '(boolValue, err) := strconv_ParseBool strValue in
    match err with
    | Some e =>
        fmt_Printf ("Warning: Could not parse %s as boolean, using default %v. Error: %v" +:+ LF)
                   [ArgString key; ArgBool defaultValue; ArgError e] ;;
        ret defaultValue
    | None => ret boolValue
    end.

Definition getEnvAsInt (key : string) (defaultValue : Z) : IO Z :=
  let strValue := getEnv key "" in
  if strValue =? "" then ret defaultValue
  else
    let '(intValue, err) := strconv_Atoi strValue in
    match err with
    | Some e =>
        fmt_Printf ("Warning: Could not parse %s as integer, using default %d. Error: %v" +:+ LF)
                   [ArgString key; ArgInt defaultValue; ArgError e] ;;
        ret defaultValue
    | None => ret intValue
    end.

Definition getEnvAsDuration (key : string) (defaultValue : Duration) : IO Duration :=
  let strValue := getEnv key "" in
  if strValue =? "" then ret defaultValue
  else
    let '(durationValue, err) := time_ParseDuration strValue in
    match err with
    | Some e =>
        fmt_Printf ("Warning: Could not parse %s as duration, using default %s. Error: %v" +:+ LF)
                   [ArgString key; ArgDurationString defaultValue; ArgError e] ;;
        ret defaultValue
    | None => ret durationValue
    end.

Definition getEnvAsSlice (key delimiter : string) (defaultValue : list string)
  : list string :=
  let strValue := getEnv key "" in
  if strValue =? "" then defaultValue
  else map strings_TrimSpace (strings_Split strValue delimiter).

(** [loadPaytrailConfig] writes through the pointer it is given, so the
    updated configuration is returned next to the error. *)
Definition loadPaytrailConfig (cfg : Config) : Config * option error :=
  let cfg := set_Paytrail (set_MerchantID (getEnv "PAYTRAIL_MERCHANT_ID" "") (Paytrail cfg)) cfg in
  if MerchantID (Paytrail cfg) =? "" then
    (cfg, Some "PAYTRAIL_MERCHANT_ID is required")
  else
  let cfg := set_Paytrail (set_SecretKey (getEnv "PAYTRAIL_SECRET_KEY" "") (Paytrail cfg)) cfg in
  if SecretKey (Paytrail cfg) =? "" then
    (cfg, Some "PAYTRAIL_SECRET_KEY is required")
  else
  let cfg := set_Paytrail (set_BaseURL (getEnv "PAYTRAIL_BASE_URL" "https://services.paytrail.com") (Paytrail cfg)) cfg in
  let cfg := set_Paytrail (set_CallbackURL (getEnv "PAYTRAIL_CALLBACK_URL" "") (Paytrail cfg)) cfg in
  let cfg := set_Paytrail (set_SuccessURL (getEnv "PAYTRAIL_SUCCESS_URL" "") (Paytrail cfg)) cfg in
  let cfg := set_Paytrail (set_CancelURL (getEnv "PAYTRAIL_CANCEL_URL" "") (Paytrail cfg)) cfg in
  if CallbackURL (Paytrail cfg) =? "" then
    (cfg, Some "PAYTRAIL_CALLBACK_URL is required")
  else if SuccessURL (Paytrail cfg) =? "" then
    (cfg, Some "PAYTRAIL_SUCCESS_URL is required")
  else if CancelURL (Paytrail cfg) =? "" then
    (cfg, Some "PAYTRAIL_CANCEL_URL is required")
  else (cfg, None).

Definition loadKongConfig (cfg : Config) : Config * option error :=
  let cfg := set_Kong (set_InternalAuth (getEnv "KONG_INTERNAL_AUTH" "") (Kong cfg)) cfg in
  if InternalAuth (Kong cfg) =? "" then
    (cfg, Some "KONG_INTERNAL_AUTH is required")
  else
  let cfg := set_Kong (set_AllowedIPs (getEnvAsSlice "KONG_ALLOWED_IPS" "," []) (Kong cfg)) cfg in
  let cfg := set_Kong (set_AdminAPIURL (getEnv "KONG_ADMIN_API_URL" "") (Kong cfg)) cfg in
  let cfg := set_Kong (set_ServiceURL (getEnv "KONG_SERVICE_URL" "http://localhost:8080") (Kong cfg)) cfg in
  (cfg, None).

Definition loadJWTConfig (cfg : Config) : IO (Config * option error) :=
  let cfg := set_JWT (set_Secret (getEnv "JWT_SECRET" "") (JWT cfg)) cfg in
  if Secret (JWT cfg) =? "" then
    ret (cfg, Some "JWT_SECRET is required")
  else
  access ← getEnvAsDuration "JWT_ACCESS_TOKEN_EXPIRY" (15 * Minute) ;
  let cfg := set_JWT (set_AccessTokenExpiry access (JWT cfg)) cfg in
  refresh ← getEnvAsDuration "JWT_REFRESH_TOKEN_EXPIRY" (7 * 24 * Hour) ;
  let cfg := set_JWT (set_RefreshTokenExpiry refresh (JWT cfg)) cfg in
  ret (cfg, None).

End WithStd.

Definition validEnvs : gmap string bool :=
  <["development" := true]> (<["staging" := true]> (<["production" := true]> ∅)).

(** A Go map read [m[k]] gives the zero value for a missing key. *)
Definition validate (c : Config) : option error :=
  if negb (default false (validEnvs !! Environment c)) then
    Some ("invalid environment: " +:+ Environment c +:+
          " (must be development, staging, or production)")
  else if (Environment c =? "production") && DebugMode c then
    Some "debug mode should not be enabled in production"
  else if (Environment c =? "production") && (AccessTokenExpiry (JWT c) >? Hour)%Z then
    Some "access token expiry too long for production environment"
  else if (Timeout c <? Second)%Z then
    Some "timeout must be at least 1 second"
  else if (MaxConnections c <? 1)%Z then
    Some "max connections must be at least 1"
  else None.

Definition IsProduction (c : Config) : bool := Environment c =? "production".
Definition IsDevelopment (c : Config) : bool := Environment c =? "development".

Section LoadWithStd.
Context `{Std : GoStd}.

Definition Load (env : gmap string string) : IO (result Config) :=
  let cfg := zeroConfig in
  let cfg := set_Port (getEnv env "PORT" "8080") cfg in
  let cfg := set_Environment (getEnv env "ENVIRONMENT" "development") cfg in
  debug ← getEnvAsBool env "DEBUG_MODE" false ;
  let cfg := set_DebugMode debug cfg in
  maxc ← getEnvAsInt env "MAX_CONNECTIONS" 100 ;
  let cfg := set_MaxConnections maxc cfg in
  tmo ← getEnvAsDuration env "TIMEOUT" (30 * Second) ;
  let cfg := set_Timeout tmo cfg in
  let cfg := set_DatabaseURL (getEnv env "DATABASE_URL" "") cfg in
  if DatabaseURL cfg =? "" then
    ret (Err "DATABASE_URL environment variable is required")
  else
  let '(cfg, err) := loadPaytrailConfig env cfg in
  match err with
  | Some e => ret (Err (Errorf_w "paytrail configuration error: " e))
  | None =>
  let '(cfg, err) := loadKongConfig env cfg in
  match err with
  | Some e => ret (Err (Errorf_w "kong configuration error: " e))
  | None =>
  r ← loadJWTConfig env cfg ;
  let '(cfg, err) := r in
  match err with
  | Some e => ret (Err (Errorf_w "jwt configuration error: " e))
  | None =>
  match validate cfg with
  | Some e => ret (Err (Errorf_w "configuration validation failed: " e))
  | None => ret (Ok cfg)
  end end end end.

End LoadWithStd.

End config.

(** ** A reference implementation of the standard-library functions

    The loader is stated over any [GoStd]; this instance follows the Go 1.21
    sources of [strconv] and [time] on byte strings and is used to run the
    loader on concrete environments. *)
Module gostd.

Definition DQ : string := String (ascii_of_nat 34) EmptyString.

(** [strconv.Quote] on text that needs no escaping. *)
Definition quote (s : string) : string := DQ +:+ s +:+ DQ.

Definition syntaxError (fn str : string) : error :=
  "strconv." +:+ fn +:+ ": parsing " +:+ quote str +:+ ": invalid syntax".
Definition rangeError (fn str : string) : error :=
  "strconv." +:+ fn +:+ ": parsing " +:+ quote str +:+ ": value out of range".

Definition ParseBool (str : string) : bool * option error :=
  if (str =? "1") || (str =? "t") || (str =? "T") || (str =? "true")
     || (str =? "TRUE") || (str =? "True") then (true, None)
  else if (str =? "0") || (str =? "f") || (str =? "F") || (str =? "false")
     || (str =? "FALSE") || (str =? "False") then (false, None)
  else (false, Some (syntaxError "ParseBool" str)).

Definition is_digit (c : ascii) : bool :=
  let n := Z.of_nat (nat_of_ascii c) in (48 <=? n)%Z && (n <=? 57)%Z.

Definition digit_val (c : ascii) : Z := Z.of_nat (nat_of_ascii c) - 48.

Definition int64_cutoff : Z := 2 ^ 63.
Definition maxUint64 : Z := 2 ^ 64 - 1.

Inductive uint_result : Type :=
| UintValue (n : Z)
| UintSyntax
| UintRange.

(** The loop of [strconv.ParseUint] in base 10: a byte that is not a digit
    is a syntax error, a value beyond 64 bits a range error, whichever comes
    first. *)
Fixpoint parseUint (n : Z) (s : string) : uint_result :=
  match s with
  | EmptyString => UintValue n
  | String c s' =>
      if negb (is_digit c) then UintSyntax
      else if (n >=? maxUint64 / 10 + 1)%Z then UintRange
      else
        let n1 := n * 10 + digit_val c in
        if (n1 >? maxUint64)%Z then UintRange else parseUint n1 s'
  end.

(** [strconv.Atoi] with a 64-bit [int]: an optional sign and at least one
    decimal digit; a value outside the range is clamped and reported. *)
Definition Atoi (s : string) : Z * option error :=
  match s with
  | EmptyString => (0, Some (syntaxError "Atoi" s))
  | String c rest =>
      let neg := Ascii.eqb c "-" in
      let body := if neg || Ascii.eqb c "+" then rest else s in
      match body with
      | EmptyString => (0, Some (syntaxError "Atoi" s))
      | _ =>
          match parseUint 0 body with
          | UintSyntax => (0, Some (syntaxError "Atoi" s))
          | UintRange =>
              (if neg then - int64_cutoff else int64_cutoff - 1,
               Some (rangeError "Atoi" s))
          | UintValue un =>
              if neg then
                if (un >? int64_cutoff)%Z then (- int64_cutoff, Some (rangeError "Atoi" s))
                else (- un, None)
              else
                if (un >=? int64_cutoff)%Z then (int64_cutoff - 1, Some (rangeError "Atoi" s))
                else (un, None)
          end
      end
  end.

(** [time.leadingInt]: the leading digits, the rest, and whether the value
    overflowed. *)
Fixpoint leadingInt (x : Z) (s : string) : option (Z * string) :=
  match s with
  | EmptyString => Some (x, s)
  | String c s' =>
      if negb (is_digit c) then Some (x, s)
      else if x >? int64_cutoff / 10 then None
      else
        let x' := x * 10 + digit_val c in
        if x' >? int64_cutoff then None else leadingInt x' s'
  end.

(** [time.leadingFraction]: digits after the point; once the value would
    overflow, further digits are skipped.  [scale] is the power of ten. *)
Fixpoint leadingFraction (x scale : Z) (overflow : bool) (s : string)
  : Z * Z * string :=
  match s with
  | EmptyString => (x, scale, s)
  | String c s' =>
      if negb (is_digit c) then (x, scale, s)
      else if overflow then leadingFraction x scale true s'
      else if x >? (int64_cutoff - 1) / 10 then leadingFraction x scale true s'
      else
        let y := x * 10 + digit_val c in
        if y >? int64_cutoff then leadingFraction x scale true s'
        else leadingFraction y (scale * 10) false s'
  end.

(** The unit is the run of bytes up to the next digit or point. *)
Fixpoint span_unit (s : string) : string * string :=
  match s with
  | EmptyString => (EmptyString, EmptyString)
  | String c s' =>
      if Ascii.eqb c "." || is_digit c then (EmptyString, s)
      else let '(u, r) := span_unit s' in (String c u, r)
  end.

Definition micro_sign : string :=
  String (ascii_of_nat 194) (String (ascii_of_nat 181) "s").
Definition greek_mu : string :=
  String (ascii_of_nat 206) (String (ascii_of_nat 188) "s").

Definition unitMap (u : string) : option Z :=
  if u =? "ns" then Some config.Nanosecond
  else if (u =? "us") || (u =? micro_sign) || (u =? greek_mu) then Some config.Microsecond
  else if u =? "ms" then Some config.Millisecond
  else if u =? "s" then Some config.Second
  else if u =? "m" then Some config.Minute
  else if u =? "h" then Some config.Hour
  else None.

Definition invalidDuration (orig : string) : error :=
  "time: invalid duration " +:+ quote orig.
Definition missingUnit (orig : string) : error :=
  "time: missing unit in duration " +:+ quote orig.
Definition unknownUnit (u orig : string) : error :=
  "time: unknown unit " +:+ quote u +:+ " in duration " +:+ quote orig.

(** The loop of [time.ParseDuration] over the groups number-unit.  The
    contribution of a fraction is taken as the exact quotient, where Go
    rounds it through [float64]. *)
Fixpoint duration_groups (orig : string) (fuel : nat) (d : Z) (s : string)
  : result Z :=
  match fuel with
  | O => Err (invalidDuration orig)
  | S fuel' =>
      match s with
      | EmptyString => Ok d
      | String c _ =>
          if negb (Ascii.eqb c "." || is_digit c) then Err (invalidDuration orig)
          else
            match leadingInt 0 s with
            | None => Err (invalidDuration orig)
            | Some (v, s1) =>
                let pre := negb (String.length s1 =? String.length s)%nat in
                let '(f, scale, s2, post) :=
                  match s1 with
                  | String "." s1' =>
                      let '(f, scale, s2) := leadingFraction 0 1 false s1' in
                      (f, scale, s2, negb (String.length s2 =? String.length s1')%nat)
                  | _ => (0, 1, s1, false)
                  end in
                if negb pre && negb post then Err (invalidDuration orig)
                else
                  let '(u, s3) := span_unit s2 in
                  if u =? "" then Err (missingUnit orig)
                  else
                    match unitMap u with
                    | None => Err (unknownUnit u orig)
                    | Some unit =>
                        if (v >? int64_cutoff / unit)%Z then Err (invalidDuration orig)
                        else
                          let v1 := v * unit in
                          let v2 := if (f >? 0)%Z then v1 + f * unit / scale else v1 in
                          if (f >? 0)%Z && (v2 >? int64_cutoff)%Z then Err (invalidDuration orig)
                          else
                            let d' := d + v2 in
                            if (d' >? int64_cutoff)%Z then Err (invalidDuration orig)
                            else duration_groups orig fuel' d' s3
                    end
            end
      end
  end.

Definition ParseDuration (orig : string) : Z * option error :=
  let '(neg, s) :=
    match orig with
    | String c s' =>
        if Ascii.eqb c "-" then (true, s')
        else if Ascii.eqb c "+" then (false, s') else (false, orig)
    | EmptyString => (false, orig)
    end in
  if s =? "0" then (0, None)
  else if s =? "" then (0, Some (invalidDuration orig))
  else
    match duration_groups orig (S (String.length s)) 0 s with
    | Err e => (0, Some e)
    | Ok d =>
        if neg then (- d, None)
        else if (d >? int64_cutoff - 1)%Z then (0, Some (invalidDuration orig))
        else (d, None)
    end.

Fixpoint has_prefix (p s : string) : bool :=
  match p, s with
  | EmptyString, _ => true
  | String a p', String b s' => Ascii.eqb a b && has_prefix p' s'
  | String _ _, EmptyString => false
  end.

(** [strings.Split] for a separator that is not empty: [skip] counts the
    bytes of a separator still to be passed over, [cur] is the piece being
    collected. *)
Fixpoint split_from (sep : string) (skip : nat) (cur : string) (s : string)
  : list string :=
  match s with
  | EmptyString => [cur]
  | String c s' =>
      match skip with
      | S k => split_from sep k cur s'
      | O =>
          if has_prefix sep s
          then cur :: split_from sep (String.length sep - 1) EmptyString s'
          else split_from sep O (cur +:+ String c EmptyString) s'
      end
  end.

(** [strings.Split]; an empty separator, which Go splits after each UTF-8
    sequence, is taken byte by byte. *)
Definition Split (s sep : string) : list string :=
  if sep =? "" then map (fun c => String c EmptyString) (list_ascii_of_string s)
  else split_from sep O EmptyString s.

Definition is_space (c : ascii) : bool :=
  let n := nat_of_ascii c in
  ((9 <=? n) && (n <=? 13) || (n =? 32))%nat.

Fixpoint trim_left (s : string) : string :=
  match s with
  | String c s' => if is_space c then trim_left s' else s
  | EmptyString => s
  end.

Fixpoint trim_right (s : string) : string :=
  match s with
  | EmptyString => EmptyString
  | String c s' =>
      match trim_right s' with
      | EmptyString => if is_space c then EmptyString else String c EmptyString
      | t => String c t
      end
  end.

(** [strings.TrimSpace] on ASCII white space. *)
Definition TrimSpace (s : string) : string := trim_right (trim_left s).

#[global] Instance std : GoStd := {|
  strconv_ParseBool := ParseBool;
  strconv_Atoi := Atoi;
  time_ParseDuration := ParseDuration;
  strings_Split := Split;
  strings_TrimSpace := TrimSpace
|}.

End gostd.


(** ** Package [logger] and the wiring in [main] *)
Module logger.

(** Go's [log] package keeps one standard logger for the whole process
    ([log.std]); [outputs] are the messages handed to its [Output] so far,
    each of which it writes behind its prefix and time stamp. *)
Record log_Logger : Type := mkStd {
  outputs : list string
}.

(** [fmt.Sprintln]: operands separated by spaces, then a line feed. *)
Fixpoint Sprintln (args : list string) : string :=
  match args with
  | [] => LF
  | [a] => a +:+ LF
  | a :: rest => a +:+ " " +:+ Sprintln rest
  end.

(** [log.Println] writes through the standard logger of the process. *)
Definition log_Println (args : list string) (std : log_Logger) : log_Logger :=
  mkStd (outputs std ++ [Sprintln args])%list.

(** [type Logger struct{}] has no field. *)
Record Logger : Type := mkLogger { }.

Definition New : Logger := mkLogger.

(** The methods of [*Logger]. *)
Definition Logger_Info (l : Logger) (msg : string) (std : log_Logger) : log_Logger :=
  log_Println ["INFO:"; msg] std.
Definition Logger_Error (l : Logger) (msg : string) (std : log_Logger) : log_Logger :=
  log_Println ["ERROR:"; msg] std.
Definition Logger_Debug (l : Logger) (msg : string) (std : log_Logger) : log_Logger :=
  log_Println ["DEBUG:"; msg] std.

(** The package-level functions ("Global functions for convenience"). *)
Definition Info (msg : string) (std : log_Logger) : log_Logger :=
  log_Println ["INFO:"; msg] std.
Definition Error (msg : string) (std : log_Logger) : log_Logger :=
  log_Println ["ERROR:"; msg] std.
Definition Debug (msg : string) (std : log_Logger) : log_Logger :=
  log_Println ["DEBUG:"; msg] std.

(** Every way the package offers to log: a method, which needs a logger
    value as its receiver, or a package-level function, which needs none. *)
Inductive entry : Type :=
| Method_Info (l : Logger)
| Method_Error (l : Logger)
| Method_Debug (l : Logger)
| Func_Info
| Func_Error
| Func_Debug.

Definition receiver (e : entry) : option Logger :=
  match e with
  | Method_Info l | Method_Error l | Method_Debug l => Some l
  | Func_Info | Func_Error | Func_Debug => None
  end.

Definition run (e : entry) (msg : string) (std : log_Logger) : log_Logger :=
  match e with
  | Method_Info l => Logger_Info l msg std
  | Method_Error l => Logger_Error l msg std
  | Method_Debug l => Logger_Debug l msg std
  | Func_Info => Info msg std
  | Func_Error => Error msg std
  | Func_Debug => Debug msg std
  end.

End logger.

Module main.

(** What a constructor call in [main] is handed. *)
Inductive dependency : Type :=
| DepLogger (l : logger.Logger)
| DepDB
| DepConfig
| DepKongInternalAuth
| DepKongAllowedIPs
| DepDatabaseURL
| DepMaxConnections
| DepJWTSecret
| DepRole (role : string).

Record construction : Type := Construct {
  constructor : string;
  arguments : list dependency
}.

(** The handler constructors called by [main], in order, with [log] the
    value returned by [logger.New]. *)
Definition handlers (log : logger.Logger) : list construction :=
  [ Construct "handlers.NewHealthHandler" [DepLogger log; DepDB];
    Construct "handlers.NewProductHandler" [DepDB; DepLogger log];
    Construct "handlers.NewCartHandler" [DepDB; DepLogger log];
    Construct "handlers.NewOrderHandler" [DepDB; DepLogger log];
    Construct "handlers.NewPaymentHandler" [DepDB; DepLogger log; DepConfig] ].

(** The middleware installed on the root router by [main]. *)
Definition middlewares (log : logger.Logger) : list construction :=
  [ Construct "middleware.Logging" [DepLogger log];
    Construct "middleware.CORS" [DepConfig];
    Construct "middleware.Security" [];
    Construct "middleware.RateLimiting" [];
    Construct "middleware.KongAuth" [DepKongInternalAuth; DepKongAllowedIPs] ].

(** The remaining collaborators [main] and [setupRoutes] set up. *)
Definition others : list construction :=
  [ Construct "config.Load" [];
    Construct "database.Connect" [DepDatabaseURL; DepMaxConnections];
    Construct "database.Ping" [DepDB];
    Construct "middleware.Auth" [DepJWTSecret];
    Construct "middleware.RequireRole" [DepRole "admin"] ].

Definition receives_logger (log : logger.Logger) (c : construction) : Prop :=
  In (DepLogger log) (arguments c).

(** *** The route table registered by [setupRoutes] *)

Inductive handler : Type :=
| healthHandler_Check
| healthHandler_CheckDatabase
| healthHandler_CheckReadiness
| productHandler_GetAll
| productHandler_GetByID
| productHandler_GetByCategory
| productHandler_Search
| productHandler_GetCategories
| productHandler_Create
| productHandler_Update
| productHandler_Delete
| cartHandler_Get
| cartHandler_AddItem
| cartHandler_UpdateItem
| cartHandler_RemoveItem
| cartHandler_Clear
| orderHandler_Create
| orderHandler_GetUserOrders
| orderHandler_GetByID
| orderHandler_Cancel
| paymentHandler_CreatePayment
| paymentHandler_GetPaymentStatus
| paymentHandler_HandleCallback
| paymentHandler_HandleSuccess
| paymentHandler_HandleCancel
| api_welcome          (* the function literal registered on "/" *)
| api_not_found.       (* the function literal registered on the prefix "/" *)

Inductive middleware : Type :=
| middleware_Auth            (* [middleware.Auth(cfg.JWT.Secret)] *)
| middleware_RequireRole (role : string).

(** What [setupRoutes] registers on a router, in order. *)
#[local] Set Warnings "-register-all".
Inductive registration : Type :=
| HandleFunc (path : string) (h : handler) (methods : list string)
             (wrapped : list middleware)
| PathPrefixHandlerFunc (prefix : string) (h : handler)
| Subrouter (prefix : string) (uses : list middleware)
            (routes : list registration).

Definition setupRoutes : list registration :=
  [ Subrouter "/api/v1" []
    [ HandleFunc "/health" healthHandler_Check ["GET"] [];
      HandleFunc "/health/db" healthHandler_CheckDatabase ["GET"] [];
      HandleFunc "/health/ready" healthHandler_CheckReadiness ["GET"] [];

      HandleFunc "/products" productHandler_GetAll ["GET"] [];
      HandleFunc "/products/{id}" productHandler_GetByID ["GET"] [];
      HandleFunc "/products/category/{category}" productHandler_GetByCategory ["GET"] [];
      HandleFunc "/products/search" productHandler_Search ["GET"] [];
      HandleFunc "/categories" productHandler_GetCategories ["GET"] [];

      Subrouter "/admin" [middleware_Auth; middleware_RequireRole "admin"]
        [ HandleFunc "/products" productHandler_Create ["POST"] [];
          HandleFunc "/products/{id}" productHandler_Update ["PUT"] [];
          HandleFunc "/products/{id}" productHandler_Delete ["DELETE"] [] ];

      Subrouter "/cart" [middleware_Auth]
        [ HandleFunc "" cartHandler_Get ["GET"] [];
          HandleFunc "" cartHandler_AddItem ["POST"] [];
          HandleFunc "/items/{id}" cartHandler_UpdateItem ["PUT"] [];
          HandleFunc "/items/{id}" cartHandler_RemoveItem ["DELETE"] [];
          HandleFunc "/clear" cartHandler_Clear ["DELETE"] [] ];

      Subrouter "/orders" [middleware_Auth]
        [ HandleFunc "" orderHandler_Create ["POST"] [];
          HandleFunc "" orderHandler_GetUserOrders ["GET"] [];
          HandleFunc "/{id}" orderHandler_GetByID ["GET"] [];
          HandleFunc "/{id}/cancel" orderHandler_Cancel ["POST"] [] ];

      Subrouter "/payments" []
        [ HandleFunc "" paymentHandler_CreatePayment ["POST"] [middleware_Auth];
          HandleFunc "/{id}/status" paymentHandler_GetPaymentStatus ["GET"] [middleware_Auth] ];

      HandleFunc "/payments/callback" paymentHandler_HandleCallback ["POST"] [];

      HandleFunc "/payments/success" paymentHandler_HandleSuccess ["GET"] [];
      HandleFunc "/payments/cancel" paymentHandler_HandleCancel ["GET"] [];

      Subrouter "/auth" [] [];

      HandleFunc "/" api_welcome ["GET"] [];

      PathPrefixHandlerFunc "/" api_not_found ] ].

(** *** Matching, as [gorilla/mux] does it *)

(** A path template is literal bytes and variables [{name}]; a variable
    stands for one or more bytes other than a slash. *)
Inductive token : Type :=
| Lit (c : ascii)
| Var.

Fixpoint parse_template (in_var : bool) (tpl : string) : list token :=
  match tpl with
  | EmptyString => []
  | String c rest =>
      if in_var then parse_template (negb (Ascii.eqb c "}")) rest
      else if Ascii.eqb c "{" then Var :: parse_template true rest
      else Lit c :: parse_template false rest
  end.

(** A path route matches the whole path, a prefix route its beginning. *)
Fixpoint match_tokens (is_prefix : bool) (ts : list token) (path : string) : bool :=
  match ts with
  | [] => is_prefix || (path =? "")
  | Lit c :: ts' =>
      match path with
      | String d path' => Ascii.eqb c d && match_tokens is_prefix ts' path'
      | EmptyString => false
      end
  | Var :: ts' =>
      (fix var_loop (p : string) : bool :=
         match p with
         | EmptyString => false
         | String d p' =>
             if Ascii.eqb d "/" then false
             else match_tokens is_prefix ts' p' || var_loop p'
         end) path
  end.

Fixpoint trim_right_slash (s : string) : string :=
  match s with
  | EmptyString => EmptyString
  | String c rest =>
      match trim_right_slash rest with
      | EmptyString => if Ascii.eqb c "/" then EmptyString else String c EmptyString
      | t => String c t
      end
  end.

(** A route added below a prefix gets the prefix, without its trailing
    slashes, in front of its own template. *)
Definition join_template (base tpl : string) : string :=
  trim_right_slash base +:+ tpl.

Record route : Type := mkRoute {
  template : string;
  is_prefix : bool;
  methods : list string;        (* empty: any method *)
  chain : list middleware;      (* outermost first *)
  target : handler
}.

Fixpoint flatten_one (base : string) (mws : list middleware) (r : registration)
  : list route :=
  match r with
  | HandleFunc path h ms wrapped =>
      [mkRoute (join_template base path) false ms (mws ++ wrapped) h]
  | PathPrefixHandlerFunc prefix h =>
      [mkRoute (join_template base prefix) true [] mws h]
  | Subrouter prefix uses inner =>
      (fix inner_routes (rs : list registration) : list route :=
         match rs with
         | [] => []
         | r' :: rest =>
             (flatten_one (join_template base prefix) (mws ++ uses) r'
                ++ inner_routes rest)%list
         end) inner
  end.

Definition flatten (base : string) (mws : list middleware) (rs : list registration)
  : list route :=
  flat_map (flatten_one base mws) rs.

Definition method_ok (r : route) (method : string) : bool :=
  match methods r with
  | [] => true
  | ms => existsb (String.eqb method) ms
  end.

Definition route_matches (method path : string) (r : route) : bool :=
  match_tokens (is_prefix r) (parse_template false (template r)) path
  && method_ok r method.

(** The route that serves a request: the first registered one whose
    template and methods both match; [None] when the router answers by
    itself (404 or 405). *)
Definition dispatch (table : list registration) (method path : string)
  : option route :=
  List.find (route_matches method path) (flatten "" [] table).

End main.

(** ** The order/payment lifecycle

    The handlers that [main] wires up ([handlers.NewOrderHandler],
    [handlers.NewPaymentHandler]) are not among the sources; the store, the
    gateway client and the coordinator below follow sections 3 and 4 of the
    design document. *)
Module lifecycle.

(** Modelled from the spec: the status of an order (section 3); the order
    store of [internal/handlers] is missing. *)
Inductive OrderStatus : Type :=
| PENDING | AWAITING_PAYMENT | PAID | FAILED | CANCELLED | EXPIRED.

#[global] Instance OrderStatus_eq_dec : EqDecision OrderStatus.
Proof. solve_decision. Defined.

(** Modelled from the spec: the status of a payment attempt (section 3). *)
Inductive AttemptStatus : Type :=
| A_CREATED | A_ACTIVE | A_CONFIRMED | A_FAILED | A_EXPIRED.

#[global] Instance AttemptStatus_eq_dec : EqDecision AttemptStatus.
Proof. solve_decision. Defined.

(** Modelled from the spec: the terminal order states PAID, CANCELLED and
    EXPIRED (section 3, lifecycle). *)
Definition terminal (s : OrderStatus) : bool :=
  match s with
  | PAID | CANCELLED | EXPIRED => true
  | PENDING | AWAITING_PAYMENT | FAILED => false
  end.

(** Modelled from the spec: a line item, product id, quantity and unit
    price at the time of the order (section 3); prices in minor units. *)
Record LineItem : Type := mkLine {
  productId : string;
  quantity : Z;
  unitPrice : Z
}.

(** Modelled from the spec: the sum of quantity times unit price over the
    line items (section 3, invariant of Order). *)
Fixpoint lines_total (ls : list LineItem) : Z :=
  match ls with
  | [] => 0
  | l :: rest => quantity l * unitPrice l + lines_total rest
  end.

(** Modelled from the spec: an order (section 3). *)
Record Order : Type := mkOrder {
  orderId : nat;
  userId : string;
  lines : list LineItem;
  currency : string;
  total : Z;
  status : OrderStatus
}.

(** Modelled from the spec: a transition writes the status column only
    (section 6). *)
Definition set_status (s : OrderStatus) (o : Order) : Order :=
  mkOrder (orderId o) (userId o) (lines o) (currency o) (total o) s.

(** Modelled from the spec: a payment attempt (section 3); the redirect
    URL of its gateway session is kept so that it can be handed out again
    (section 4.4, initiatePayment). *)
Record PaymentAttempt : Type := mkAttempt {
  attemptId : nat;
  attemptOrder : nat;
  providerRef : option string;
  amount : Z;
  attemptStatus : AttemptStatus;
  created : Z;
  updated : Z;
  redirect : string
}.

(** Modelled from the spec: a change of an attempt's status, stamping its
    last-updated time (section 3). *)
Definition set_attemptStatus (s : AttemptStatus) (now : Z) (a : PaymentAttempt)
  : PaymentAttempt :=
  mkAttempt (attemptId a) (attemptOrder a) (providerRef a) (amount a) s
            (created a) now (redirect a).

(** Modelled from the spec: the failures named in sections 4 and 7. *)
Inductive Failure : Type :=
| EmptyCartError
| ProductUnavailableError (product : string)
| OrderNotFoundError
| GatewayUnavailableError
| UntrustedCallbackError
| NotOrderOwnerError.

(** Modelled from the spec: an operation gives its result or fails with one
    of the typed failures (section 7). *)
Inductive outcome (A : Type) : Type :=
| Done (a : A)
| Fail (e : Failure).
Arguments Done {A} a.
Arguments Fail {A} e.

(** *** Order store (section 4.2) *)

(** Modelled from the spec: the persisted orders and payment attempts
    (section 6, persisted state layout); attempts are never deleted. *)
Record Store : Type := mkStore {
  orders : gmap nat Order;
  attempts : list PaymentAttempt;
  nextOrderId : nat;
  nextAttemptId : nat
}.

(** Modelled from the spec: the store before any order is placed. *)
Definition emptyStore : Store := mkStore ∅ [] 0 0.

(** Modelled from the spec: writes to the order records and to the attempt
    records of the store (section 6). *)
Definition set_orders (m : gmap nat Order) (s : Store) : Store :=
  mkStore m (attempts s) (nextOrderId s) (nextAttemptId s).
Definition set_attempts (l : list PaymentAttempt) (s : Store) : Store :=
  mkStore (orders s) l (nextOrderId s) (nextAttemptId s).

(** Modelled from the spec: [createOrder(userId, snapshot)] persists a new
    order in PENDING with a derived total (section 4.2). *)
Definition store_createOrder (user cur : string) (snapshot : list LineItem)
           (s : Store) : Store * Order :=
  let o := mkOrder (nextOrderId s) user snapshot cur (lines_total snapshot) PENDING in
  (mkStore (<[nextOrderId s := o]> (orders s)) (attempts s)
           (S (nextOrderId s)) (nextAttemptId s), o).

(** Modelled from the spec: [getById], failing with OrderNotFoundError for
    an unknown id (section 4.2). *)
Definition getById (s : Store) (id : nat) : outcome Order :=
  match orders s !! id with
  | Some o => Done o
  | None => Fail OrderNotFoundError
  end.

(** Modelled from the spec: [listByUser] (section 4.2). *)
Definition listByUser (s : Store) (user : string) : list Order :=
  filter (fun o => userId o = user) (map snd (map_to_list (orders s))).

(** Modelled from the spec: [updateStatus(orderId, fromStatus, toStatus)],
    the compare-and-swap transition (section 4.2): false and no change when
    the current status is not [fromStatus]. *)
Definition updateStatus (s : Store) (id : nat) (fromStatus toStatus : OrderStatus)
  : outcome (Store * bool) :=
  match orders s !! id with
  | None => Fail OrderNotFoundError
  | Some o =>
      if decide (status o = fromStatus)
      then Done (set_orders (<[id := set_status toStatus o]> (orders s)) s, true)
      else Done (s, false)
  end.

(** Modelled from the spec: the attempt status moves together with the
    order status (section 4.4): the ACTIVE attempt of the order takes the
    new status. *)
Definition settle_attempt (id : nat) (to : AttemptStatus) (now : Z)
           (a : PaymentAttempt) : PaymentAttempt :=
  if decide (attemptOrder a = id ∧ attemptStatus a = A_ACTIVE)
  then set_attemptStatus to now a else a.

(** Modelled from the spec: [settle_attempt] over all attempts on record. *)
Definition settle_active (id : nat) (to : AttemptStatus) (now : Z) (s : Store)
  : Store :=
  set_attempts (map (settle_attempt id to now) (attempts s)) s.

(** *** Cart snapshot resolver (section 4.1) *)

(** Modelled from the spec: a line of a user's live cart (section 4.1). *)
Record CartLine : Type := mkCartLine {
  cartProduct : string;
  cartQuantity : Z
}.

(** Modelled from the spec: a catalog entry, current price and stock
    (section 4.1). *)
Record Product : Type := mkProduct {
  price : Z;
  stock : Z
}.

(** Modelled from the spec: the snapshot takes each price from the current
    catalog and fails on the first product that is missing or short of
    stock (section 4.1). *)
Fixpoint snapshot_lines (catalog : gmap string Product) (cart : list CartLine)
  : outcome (list LineItem) :=
  match cart with
  | [] => Done []
  | l :: rest =>
      match catalog !! cartProduct l with
      | None => Fail (ProductUnavailableError (cartProduct l))
      | Some p =>
          if (cartQuantity l <=? stock p)%Z then
            match snapshot_lines catalog rest with
            | Done ls => Done (mkLine (cartProduct l) (cartQuantity l) (price p) :: ls)
            | Fail e => Fail e
            end
          else Fail (ProductUnavailableError (cartProduct l))
      end
  end.

(** Modelled from the spec: the cart snapshot resolver (section 4.1),
    read-only, failing with EmptyCartError when the cart has no line. *)
Definition resolveCart (carts : gmap string (list CartLine))
           (catalog : gmap string Product) (user : string)
  : outcome (list LineItem) :=
  match default [] (carts !! user) with
  | [] => Fail EmptyCartError
  | cart => snapshot_lines catalog cart
  end.

(** *** Payment gateway client (section 4.3) *)

(** Modelled from the spec: a field of a gateway message, as it enters the
    authentication code (section 6). *)
Inductive field : Type :=
| FText (s : string)
| FNumber (n : Z).

(** Modelled from the spec: the request sent to the payment gateway
    (section 6, outbound). *)
Record PaymentRequest : Type := mkRequest {
  reqMerchant : string;
  reqOrder : nat;
  reqAmount : Z;
  reqCurrency : string;
  reqCallbackURL : string;
  reqSuccessURL : string;
  reqCancelURL : string;
  reqAuthCode : string
}.

(** Modelled from the spec: what [openPayment] returns, the redirect URL
    and the provider reference of the attempt (section 4.3). *)
Record ProviderSession : Type := mkSession {
  redirectURL : string;
  providerReference : string
}.

(** Modelled from the spec: the outcome a callback reports, success or
    cancel (section 4.4). *)
Inductive CallbackOutcome : Type :=
| CB_SUCCESS
| CB_CANCEL.

#[global] Instance CallbackOutcome_eq_dec : EqDecision CallbackOutcome.
Proof. solve_decision. Defined.

(** Modelled from the spec: the fields of a provider callback (section 6):
    order reference, amount, outcome code, provider reference. *)
Record Callback : Type := mkCallback {
  cbOrder : nat;
  cbAmount : Z;
  cbOutcome : CallbackOutcome;
  cbProviderRef : string
}.

(** Modelled from the spec: what each component is given at construction
    (section 9): the merchant settings, the shared secret, the keyed hash
    [mac], the provider behind the gateway ([None]: transport or 5xx
    failure) and the expiry window. *)
Class Deps : Type := {
  merchantId : string;
  sharedSecret : string;
  shopCurrency : string;
  callbackURL : string;
  successURL : string;
  cancelURL : string;
  mac : string -> list field -> string;
  provider : PaymentRequest -> option ProviderSession;
  expiryWindow : Z
}.

(** Modelled from the spec: the outcome code as it is written in the
    payload (section 6). *)
Definition outcome_code (o : CallbackOutcome) : string :=
  match o with
  | CB_SUCCESS => "ok"
  | CB_CANCEL => "fail"
  end.

(** Modelled from the spec: the canonical fields covered by the
    authentication code of a callback: order id, amount, status, provider
    reference (section 4.3, design rationale). *)
Definition callback_fields (b : Callback) : list field :=
  [FNumber (Z.of_nat (cbOrder b)); FNumber (cbAmount b);
   FText (outcome_code (cbOutcome b)); FText (cbProviderRef b)].

Section WithDeps.
Context `{D : Deps}.

(** Modelled from the spec: the canonical fields of a payment request
    (section 6, outbound). *)
Definition request_fields (o : Order) : list field :=
  [FText merchantId; FNumber (Z.of_nat (orderId o)); FNumber (total o);
   FText (currency o); FText callbackURL; FText successURL; FText cancelURL].

(** Modelled from the spec: [openPayment(order)] builds the signed
    request and returns the provider session, failing with
    GatewayUnavailableError (section 4.3). *)
Definition openPayment (o : Order) : outcome ProviderSession :=
  let req := mkRequest merchantId (orderId o) (total o) (currency o)
                       callbackURL successURL cancelURL
                       (mac sharedSecret (request_fields o)) in
  match provider req with
  | Some sess => Done sess
  | None => Fail GatewayUnavailableError
  end.

(** Modelled from the spec: [verifySignature(headers, body)] recomputes
    the authentication code over the payload with the shared secret and
    compares (section 4.3). *)
Definition verifySignature (headers : gmap string string) (body : Callback)
  : bool :=
  match headers !! "signature" with
  | Some code => code =? mac sharedSecret (callback_fields body)
  | None => false
  end.

End WithDeps.

(** *** Order/payment coordinator (section 4.4) *)

(** Modelled from the spec: what the coordinator writes to its log, an
    untrusted callback (section 4.4). *)
Inductive LogEntry : Type :=
| UntrustedCallback (headers : gmap string string) (body : Callback).

(** Modelled from the spec: everything the coordinator reads and writes:
    the order store, the users' live carts, the catalog, the time, the
    log. *)
Record State : Type := mkState {
  store : Store;
  carts : gmap string (list CartLine);
  catalog : gmap string Product;
  clock : Z;
  journal : list LogEntry
}.

(** Modelled from the spec: the system before anything happened. *)
Definition initState : State := mkState emptyStore ∅ ∅ 0 [].

(** Modelled from the spec: updates of the parts of the state. *)
Definition set_store (s : Store) (st : State) : State :=
  mkState s (carts st) (catalog st) (clock st) (journal st).
Definition set_carts (c : gmap string (list CartLine)) (st : State) : State :=
  mkState (store st) c (catalog st) (clock st) (journal st).
Definition set_catalog (c : gmap string Product) (st : State) : State :=
  mkState (store st) (carts st) c (clock st) (journal st).
Definition set_clock (t : Z) (st : State) : State :=
  mkState (store st) (carts st) (catalog st) t (journal st).
Definition log_entry (e : LogEntry) (st : State) : State :=
  mkState (store st) (carts st) (catalog st) (clock st) (journal st ++ [e])%list.

(** Modelled from the spec: the answer to a callback or a cancel request,
    an acknowledgment or a rejection with its failure (sections 4.4, 7). *)
Inductive Reply : Type :=
| Acknowledged
| Rejected (e : Failure).

(** Modelled from the spec: the answer to [initiatePayment], the redirect
    URL, a conflict reporting the current status, or a failure (sections
    4.4, 7). *)
Inductive PayReply : Type :=
| Redirect (url : string)
| Conflict (current : OrderStatus)
| PayFailed (e : Failure).

(** Modelled from the spec: the transition a verified callback asks for
    (section 4.4): success to PAID / CONFIRMED, cancel to CANCELLED /
    FAILED. *)
Definition callback_transition (o : CallbackOutcome) : OrderStatus * AttemptStatus :=
  match o with
  | CB_SUCCESS => (PAID, A_CONFIRMED)
  | CB_CANCEL => (CANCELLED, A_FAILED)
  end.

(** Modelled from the spec: the ACTIVE attempt of an order, of which there
    is at most one (section 3). *)
Definition active_attempt (s : Store) (id : nat) : option PaymentAttempt :=
  List.find (fun a => bool_decide (attemptOrder a = id ∧ attemptStatus a = A_ACTIVE))
            (attempts s).

Section Coordinator.
Context `{D : Deps}.

(** Modelled from the spec: [createOrder(userId)] resolves the cart
    snapshot and persists a PENDING order (section 4.4). *)
Definition createOrder (st : State) (user : string) : State * outcome Order :=
  match resolveCart (carts st) (catalog st) user with
  | Fail e => (st, Fail e)
  | Done snapshot =>
      let '(s', o) := store_createOrder user shopCurrency snapshot (store st) in
      (set_store s' st, Done o)
  end.

(** Modelled from the spec: [initiatePayment(orderId)] (section 4.4): an
    order that is not PENDING gets a conflict answer and no gateway call;
    otherwise the session is opened, then the compare-and-swap PENDING to
    AWAITING_PAYMENT is made and the attempt recorded as ACTIVE; when the
    swap fails the session is dropped and the existing redirect given. *)
Definition initiatePayment (st : State) (id : nat) : State * PayReply :=
  match getById (store st) id with
  | Fail e => (st, PayFailed e)
  | Done o =>
      if decide (status o = PENDING) then
        match openPayment o with
        | Fail e => (st, PayFailed e)
        | Done sess =>
            match updateStatus (store st) id PENDING AWAITING_PAYMENT with
            | Fail e => (st, PayFailed e)
            | Done (s', true) =>
                let a := mkAttempt (nextAttemptId s') id
                                   (Some (providerReference sess)) (total o)
                                   A_ACTIVE (clock st) (clock st)
                                   (redirectURL sess) in
                (set_store (mkStore (orders s') (attempts s' ++ [a])%list
                                    (nextOrderId s') (S (nextAttemptId s'))) st,
                 Redirect (redirectURL sess))
            | Done (_, false) =>
                match active_attempt (store st) id with
                | Some a => (st, Redirect (redirect a))
                | None => (st, Conflict (status o))
                end
            end
        end
      else (st, Conflict (status o))
  end.

(** Modelled from the spec: [handleCallback(headers, body)] (section
    4.4): a callback whose signature fails is logged and rejected; for a
    verified one the order is loaded, a terminal order is acknowledged as
    it is, and otherwise the transition out of AWAITING_PAYMENT is made by
    compare-and-swap on the status just read. *)
Definition handleCallback (st : State) (headers : gmap string string)
           (body : Callback) : State * Reply :=
  if negb (verifySignature headers body) then
    (log_entry (UntrustedCallback headers body) st, Rejected UntrustedCallbackError)
  else
    match getById (store st) (cbOrder body) with
    | Fail e => (st, Rejected e)
    | Done o =>
        if terminal (status o) then (st, Acknowledged)
        else if decide (status o = AWAITING_PAYMENT) then
          let '(to, ato) := callback_transition (cbOutcome body) in
          match updateStatus (store st) (cbOrder body) (status o) to with
          | Fail e => (st, Rejected e)
          | Done (s', true) =>
              (set_store (settle_active (cbOrder body) ato (clock st) s') st,
               Acknowledged)
          | Done (_, false) => (st, Acknowledged)
          end
        else (st, Acknowledged)
    end.

(** Modelled from the spec: [cancelOrder(orderId, requestingUserId)]
    (section 4.4): the order must belong to the requester; a terminal
    order is acknowledged as it is; otherwise CANCELLED / FAILED. *)
Definition cancelOrder (st : State) (id : nat) (requester : string)
  : State * Reply :=
  match getById (store st) id with
  | Fail e => (st, Rejected e)
  | Done o =>
      if negb (userId o =? requester) then (st, Rejected NotOrderOwnerError)
      else if terminal (status o) then (st, Acknowledged)
      else
        match updateStatus (store st) id (status o) CANCELLED with
        | Fail e => (st, Rejected e)
        | Done (s', true) =>
            (set_store (settle_active id A_FAILED (clock st) s') st, Acknowledged)
        | Done (_, false) => (st, Acknowledged)
        end
  end.

(** Modelled from the spec: an ACTIVE attempt created longer ago than the
    configured expiry window (section 4.4). *)
Definition stale (now : Z) (a : PaymentAttempt) : bool :=
  bool_decide (attemptStatus a = A_ACTIVE) && (created a + expiryWindow <? now)%Z.

(** Modelled from the spec: the sweep takes the attempts on record one by
    one; for a stale one the order goes from AWAITING_PAYMENT to EXPIRED by
    compare-and-swap and the attempt to EXPIRED (sections 4.4, 5). *)
Fixpoint sweep (now : Z) (todo : list PaymentAttempt) (s : Store) : Store * nat :=
  match todo with
  | [] => (s, O)
  | a :: rest =>
      if stale now a then
        match updateStatus s (attemptOrder a) AWAITING_PAYMENT EXPIRED with
        | Done (s', true) =>
            let '(s'', n) :=
              sweep now rest (settle_active (attemptOrder a) A_EXPIRED now s') in
            (s'', S n)
        | _ => sweep now rest s
        end
      else sweep now rest s
  end.

(** Modelled from the spec: [expireStalePayments(now)] (section 4.4):
    every order in AWAITING_PAYMENT whose active attempt is older than the
    window goes to EXPIRED / EXPIRED; the number of orders moved is
    returned. *)
Definition expireStalePayments (st : State) (now : Z) : State * nat :=
  let '(s', n) := sweep now (attempts (store st)) (store st) in
  (set_store s' st, n).

(** Modelled from the spec: the callback ingress (section 4.5) forwards
    to [handleCallback] and always answers the provider with success. *)
Definition callbackIngress (st : State) (headers : gmap string string)
           (body : Callback) : State * nat :=
  (fst (handleCallback st headers body), 200%nat).

(** Modelled from the spec: one step of the system, an operation of the
    coordinator (section 4.4) or a change made by its surroundings (a user
    editing the live cart, a catalog update, time passing). *)
Inductive operation : Type :=
| OpCreateOrder (user : string)
| OpInitiatePayment (id : nat)
| OpHandleCallback (headers : gmap string string) (body : Callback)
| OpCancelOrder (id : nat) (requester : string)
| OpExpireStalePayments (now : Z)
| OpSetCart (user : string) (cart : list CartLine)
| OpSetProduct (product : string) (p : Product)
| OpTick (now : Z).

(** Modelled from the spec: the state after one step. *)
Definition step (st : State) (op : operation) : State :=
  match op with
  | OpCreateOrder user => fst (createOrder st user)
  | OpInitiatePayment id => fst (initiatePayment st id)
  | OpHandleCallback headers body => fst (handleCallback st headers body)
  | OpCancelOrder id requester => fst (cancelOrder st id requester)
  | OpExpireStalePayments now => fst (expireStalePayments st now)
  | OpSetCart user cart => set_carts (<[user := cart]> (carts st)) st
  | OpSetProduct product p => set_catalog (<[product := p]> (catalog st)) st
  | OpTick now => set_clock now st
  end.

(** Modelled from the spec: the state reached from the initial one by a
    sequence of steps; these are the states that can be observed. *)
Definition run (ops : list operation) : State := fold_left step ops initState.

End Coordinator.

End lifecycle.

(** ** Vocabulary of the statements *)
Module config_spec.
Import config.

(** The variables the loader insists on. *)
Definition required_vars : list string :=
  [ "DATABASE_URL"; "PAYTRAIL_MERCHANT_ID"; "PAYTRAIL_SECRET_KEY";
    "PAYTRAIL_CALLBACK_URL"; "PAYTRAIL_SUCCESS_URL"; "PAYTRAIL_CANCEL_URL";
    "KONG_INTERNAL_AUTH"; "JWT_SECRET" ].

(** What the checks of [validate] are meant to guarantee. *)
Definition validated (c : Config) : Prop :=
  (Environment c = "development" \/ Environment c = "staging"
   \/ Environment c = "production")
  /\ (Second <= Timeout c)%Z
  /\ (1 <= MaxConnections c)%Z
  /\ (Environment c = "production" ->
      DebugMode c = false /\ (AccessTokenExpiry (JWT c) <= Hour)%Z).

(** The value an environment parser is meant to give: the default when
    the variable is unset, empty, or not parseable, the parsed value
    otherwise. *)
Definition parsed_or_default {A : Type} (parse : string -> A * option error)
           (env : gmap string string) (key : string) (defaultValue : A) : A :=
  match env !! key with
  | None => defaultValue
  | Some s =>
      if s =? "" then defaultValue
      else
        match parse s with
        | (v, None) => v
        | (_, Some _) => defaultValue
        end
  end.

(** A complete environment, with one value that does not parse. *)
Definition sample_env : gmap string string :=
  list_to_map
    [ ("DATABASE_URL", "postgres://shop@db/shockbliss");
      ("PAYTRAIL_MERCHANT_ID", "375917");
      ("PAYTRAIL_SECRET_KEY", "SAIPPUAKAUPPIAS");
      ("PAYTRAIL_CALLBACK_URL", "https://shop.example/api/v1/payments/callback");
      ("PAYTRAIL_SUCCESS_URL", "https://shop.example/api/v1/payments/success");
      ("PAYTRAIL_CANCEL_URL", "https://shop.example/api/v1/payments/cancel");
      ("KONG_INTERNAL_AUTH", "kong-shared");
      ("JWT_SECRET", "jwt-secret");
      ("ENVIRONMENT", "production");
      ("MAX_CONNECTIONS", "25");
      ("TIMEOUT", "5x");
      ("JWT_ACCESS_TOKEN_EXPIRY", "30m");
      ("KONG_ALLOWED_IPS", "10.0.0.1, 10.0.0.2") ].

Definition sample_config : Config :=
  mkConfig "8080" "production" false "postgres://shop@db/shockbliss" 25
           (30 * Second)
           (mkPaytrail "375917" "SAIPPUAKAUPPIAS" "https://services.paytrail.com"
                       "https://shop.example/api/v1/payments/callback"
                       "https://shop.example/api/v1/payments/success"
                       "https://shop.example/api/v1/payments/cancel")
           (mkKong "kong-shared" ["10.0.0.1"; "10.0.0.2"] "" "http://localhost:8080")
           (mkJWT "jwt-secret" (30 * Minute) (7 * 24 * Hour)).

End config_spec.

Module logger_spec.
Import logger.

(** Whatever changes what has been logged has a logger value as its
    receiver. *)
Definition logging_needs_instance : Prop :=
  forall e msg std, run e msg std <> std -> is_Some (receiver e).

(** What is logged through a logger value stays out of the state shared by
    the whole process. *)
Definition instance_spares_process_state : Prop :=
  forall l msg std,
    Logger_Info l msg std = std /\ Logger_Error l msg std = std
    /\ Logger_Debug l msg std = std.

(** Logging that goes through an injected logger rather than through
    package-level state. *)
Definition logging_through_injected_instance : Prop :=
  logging_needs_instance /\ instance_spares_process_state.

Definition level (e : entry) : string :=
  match e with
  | Method_Info _ | Func_Info => "INFO:"
  | Method_Error _ | Func_Error => "ERROR:"
  | Method_Debug _ | Func_Debug => "DEBUG:"
  end.

(** The standard logger of a process that has logged nothing yet. *)
Definition fresh_std : log_Logger := mkStd [].

End logger_spec.

Module routes_spec.
Import main.

(** The handler that answers a request. *)
Definition serves (method path : string) (h : handler) : Prop :=
  target <$> dispatch setupRoutes method path = Some h.

(** A template without variables. *)
Fixpoint literal (tpl : string) : bool :=
  match tpl with
  | EmptyString => true
  | String c rest => negb (Ascii.eqb c "{") && literal rest
  end.

End routes_spec.

Module lifecycle_spec.
Import lifecycle.

(** The invariant of section 3: the total of every stored order is the sum
    of quantity times unit price over its line items. *)
Definition totals_consistent (s : Store) : Prop :=
  forall id o, orders s !! id = Some o -> total o = lines_total (lines o).

(** Ids at or above the counter are not in use yet. *)
Definition fresh_ids (s : Store) : Prop :=
  forall id, (nextOrderId s <= id)%nat -> orders s !! id = None.

(** How a stored order may differ after an operation: not at all, or, if
    it was not terminal, in its status only. *)
Definition live_step (o o' : Order) : Prop :=
  o' = o \/ (terminal (status o) = false /\ exists st, o' = set_status st o).

Definition changes_only_live (s s' : Store) : Prop :=
  (forall id, option_Forall2 live_step (orders s !! id) (orders s' !! id))
  /\ nextOrderId s' = nextOrderId s.

(** *** A worked scenario (section 8) *)

Definition render (f : field) : string :=
  match f with
  | FText t => t
  | FNumber n => DecimalString.NilZero.string_of_int (Z.to_int n)
  end.

(** Settings for the scenario; the keyed hash is a stand-in that joins the
    key and the rendered fields. *)
#[global] Instance scenario_deps : Deps := {|
  merchantId := "375917";
  sharedSecret := "SAIPPUAKAUPPIAS";
  shopCurrency := "USD";
  callbackURL := "https://shop.example/api/v1/payments/callback";
  successURL := "https://shop.example/api/v1/payments/success";
  cancelURL := "https://shop.example/api/v1/payments/cancel";
  mac := fun key fields => key +:+ ":" +:+ String.concat "," (map render fields);
  provider := fun req =>
    Some (mkSession ("https://pay.example/session/" +:+ render (FNumber (Z.of_nat (reqOrder req))))
                    ("tx-" +:+ render (FNumber (Z.of_nat (reqOrder req)))));
  expiryWindow := 900
|}.

(** Two products, a cart of two lines, the order, its payment. *)
Definition checkout : list operation :=
  [ OpSetProduct "productA" (mkProduct 1000 5);
    OpSetProduct "productB" (mkProduct 500 1);
    OpSetCart "alice" [mkCartLine "productA" 2; mkCartLine "productB" 1];
    OpCreateOrder "alice";
    OpInitiatePayment 0 ].

Definition paid_callback : Callback := mkCallback 0 2500 CB_SUCCESS "tx-0".

Definition signed (b : Callback) : gmap string string :=
  {[ "signature" := mac sharedSecret (callback_fields b) ]}.

Definition forged (b : Callback) : gmap string string :=
  {[ "signature" := "0000" ]}.

Definition awaiting : State := run checkout.
Definition paid : State := fst (handleCallback awaiting (signed paid_callback) paid_callback).

Definition scenario_order (st : OrderStatus) : Order :=
  mkOrder 0 "alice" [mkLine "productA" 2 1000; mkLine "productB" 1 500] "USD" 2500 st.

End lifecycle_spec.

(** ** What [main] computes from the configuration *)
Module startup.
Import config.

(** Arithmetic on [int64] wraps around. *)
Definition wrap64 (z : Z) : Z := (z + 2 ^ 63) mod 2 ^ 64 - 2 ^ 63.

(** The log level [main] picks before it constructs the logger. *)
Definition logLevel (cfg : Config) : string :=
  let level := "info" in
  let level := if DebugMode cfg then "debug" else level in
  let level := if IsProduction cfg then "warn" else level in
  level.

(** The fields [main] sets in [http.Server]. *)
Record Server : Type := mkServer {
  Addr : string;
  ReadTimeout : Duration;
  WriteTimeout : Duration;
  IdleTimeout : Duration
}.

Definition newServer (cfg : Config) : Server :=
  mkServer (":" +:+ Port cfg) (Timeout cfg) (Timeout cfg) (wrap64 (Timeout cfg * 2)).

(** The calls of [router.Use] in [main], in order; the last one is made
    only when [cfg.Kong.InternalAuth] is not empty. *)
Definition router_Use (cfg : Config) (log : logger.Logger) : list main.construction :=
  [ main.Construct "middleware.Logging" [main.DepLogger log];
    main.Construct "middleware.CORS" [main.DepConfig];
    main.Construct "middleware.Security" [];
    main.Construct "middleware.RateLimiting" [] ]
  ++ (if negb (InternalAuth (Kong cfg) =? "")
      then [ main.Construct "middleware.KongAuth"
               [main.DepKongInternalAuth; main.DepKongAllowedIPs] ]
      else []).

End startup.

Module load_spec.
Import config config_spec.

(** The first required variable, in the order [Load] looks at them, that
    is unset or empty. *)
Definition first_missing (env : gmap string string) : option string :=
  List.find (fun key => os_Getenv env key =? "") required_vars.

(** The error [Load] gives for a missing required variable. *)
Definition required_error (key : string) : error :=
  if key =? "DATABASE_URL" then "DATABASE_URL environment variable is required"
  else if (key =? "KONG_INTERNAL_AUTH") then
    "kong configuration error: " +:+ key +:+ " is required"
  else if (key =? "JWT_SECRET") then
    "jwt configuration error: " +:+ key +:+ " is required"
  else "paytrail configuration error: " +:+ key +:+ " is required".

Section WithStd.
Context `{Std : GoStd}.

(** The configuration made of each variable's value or its default. *)
Definition assembled (env : gmap string string) : Config :=
  mkConfig (getEnv env "PORT" "8080")
           (getEnv env "ENVIRONMENT" "development")
           (fst (getEnvAsBool env "DEBUG_MODE" false))
           (os_Getenv env "DATABASE_URL")
           (fst (getEnvAsInt env "MAX_CONNECTIONS" 100))
           (fst (getEnvAsDuration env "TIMEOUT" (30 * Second)))
           (mkPaytrail (os_Getenv env "PAYTRAIL_MERCHANT_ID")
                       (os_Getenv env "PAYTRAIL_SECRET_KEY")
                       (getEnv env "PAYTRAIL_BASE_URL" "https://services.paytrail.com")
                       (os_Getenv env "PAYTRAIL_CALLBACK_URL")
                       (os_Getenv env "PAYTRAIL_SUCCESS_URL")
                       (os_Getenv env "PAYTRAIL_CANCEL_URL"))
           (mkKong (os_Getenv env "KONG_INTERNAL_AUTH")
                   (getEnvAsSlice env "KONG_ALLOWED_IPS" "," [])
                   (os_Getenv env "KONG_ADMIN_API_URL")
                   (getEnv env "KONG_SERVICE_URL" "http://localhost:8080"))
           (mkJWT (os_Getenv env "JWT_SECRET")
                  (fst (getEnvAsDuration env "JWT_ACCESS_TOKEN_EXPIRY" (15 * Minute)))
                  (fst (getEnvAsDuration env "JWT_REFRESH_TOKEN_EXPIRY" (7 * 24 * Hour)))).

End WithStd.




(** The variables that have a default. *)
Definition optional_vars : list string :=
  [ "PORT"; "ENVIRONMENT"; "DEBUG_MODE"; "MAX_CONNECTIONS"; "TIMEOUT";
    "PAYTRAIL_BASE_URL"; "KONG_ALLOWED_IPS"; "KONG_ADMIN_API_URL";
    "KONG_SERVICE_URL"; "JWT_ACCESS_TOKEN_EXPIRY"; "JWT_REFRESH_TOKEN_EXPIRY" ].

(** All the variables [Load] looks at. *)
Definition known_vars : list string := (required_vars ++ optional_vars)%list.

(** An environment that sets the required variables and nothing else. *)
Definition minimal_env : gmap string string :=
  list_to_map
    [ ("DATABASE_URL", "postgres://shop@db/shockbliss");
      ("PAYTRAIL_MERCHANT_ID", "375917");
      ("PAYTRAIL_SECRET_KEY", "SAIPPUAKAUPPIAS");
      ("PAYTRAIL_CALLBACK_URL", "https://shop.example/api/v1/payments/callback");
      ("PAYTRAIL_SUCCESS_URL", "https://shop.example/api/v1/payments/success");
      ("PAYTRAIL_CANCEL_URL", "https://shop.example/api/v1/payments/cancel");
      ("KONG_INTERNAL_AUTH", "kong-shared");
      ("JWT_SECRET", "jwt-secret") ].

(** An environment whose timeout is the longest whole number of hours
    that fits 64 bits. *)
Definition long_timeout_env : gmap string string :=
  <["TIMEOUT" := "2562047h"]> minimal_env.

End load_spec.

Module routes_more_spec.
Import main.

(** The handlers that [setupRoutes] puts behind [middleware.Auth]: those of
    the admin, cart and order subrouters and the two payment routes whose
    handler is wrapped. *)
Definition behind_auth (h : handler) : bool :=
  match h with
  | productHandler_Create | productHandler_Update | productHandler_Delete
  | cartHandler_Get | cartHandler_AddItem | cartHandler_UpdateItem
  | cartHandler_RemoveItem | cartHandler_Clear
  | orderHandler_Create | orderHandler_GetUserOrders | orderHandler_GetByID
  | orderHandler_Cancel
  | paymentHandler_CreatePayment | paymentHandler_GetPaymentStatus => true
  | _ => false
  end.

(** The handlers of the admin subrouter. *)
Definition admin_only (h : handler) : bool :=
  match h with
  | productHandler_Create | productHandler_Update | productHandler_Delete => true
  | _ => false
  end.




(** The routes of [setupRoutes], written out. *)
Definition table : list route := Eval vm_compute in flatten "" [] setupRoutes.

End routes_more_spec.

Module logger_more_spec.
Import logger logger_spec.

(** A sequence of logging calls, each through a method or a package-level
    function. *)
Definition log_all (calls : list (entry * string)) (std : log_Logger) : log_Logger :=
  fold_left (fun s call => run (fst call) (snd call) s) calls std.

Definition line (call : entry * string) : string :=
  level (fst call) +:+ " " +:+ snd call +:+ LF.

End logger_more_spec.

(** * Properties *)

(** ** Configuration loading *)
Module config_props.
Import config config_spec.

Section Facts.
Context `{Std : GoStd}.
Variable env : gmap string string.

Lemma getEnv_empty_default key :
  getEnv env key "" = os_Getenv env key.
Proof.
  unfold getEnv. destruct (os_Getenv env key =? "") eqn:E; simpl; [|done].
  by apply String.eqb_eq in E.
Qed.

Lemma os_Getenv_unset_or_empty key :
  env !! key = None \/ env !! key = Some "" -> os_Getenv env key = "".
Proof. unfold os_Getenv. by intros [-> | ->]. Qed.

Lemma validEnvs_true e :
  default false (validEnvs !! e) = true ->
  e = "development" \/ e = "staging" \/ e = "production".
Proof.
  unfold validEnvs. rewrite !lookup_insert, lookup_empty.
  repeat case_decide; subst; simpl; auto; discriminate.
Qed.

Lemma validate_None c : validate c = None -> validated c.
Proof.
  unfold validate, validated.
  destruct (default false (validEnvs !! Environment c)) eqn:Hv; simpl; [|discriminate].
  apply validEnvs_true in Hv.
  destruct (Environment c =? "production") eqn:Hp; simpl.
  - destruct (DebugMode c) eqn:Hd; [discriminate|].
    destruct (AccessTokenExpiry (JWT c) >? Hour)%Z eqn:Ha; [discriminate|].
    destruct (Timeout c <? Second)%Z eqn:Ht; [discriminate|].
    destruct (MaxConnections c <? 1)%Z eqn:Hm; [discriminate|].
    intros _. repeat split; auto; lia.
  - destruct (Timeout c <? Second)%Z eqn:Ht; [discriminate|].
    destruct (MaxConnections c <? 1)%Z eqn:Hm; [discriminate|].
    intros _. apply String.eqb_neq in Hp. repeat split; auto; try lia; contradiction.
Qed.

Lemma getEnv_nonempty key :
  (getEnv env key "" =? "") = false -> os_Getenv env key <> "".
Proof. rewrite getEnv_empty_default. by intros H%String.eqb_neq. Qed.

Lemma loadPaytrailConfig_None cfg cfg' :
  loadPaytrailConfig env cfg = (cfg', None) ->
  Forall (fun key => os_Getenv env key <> "")
         [ "PAYTRAIL_MERCHANT_ID"; "PAYTRAIL_SECRET_KEY"; "PAYTRAIL_CALLBACK_URL";
           "PAYTRAIL_SUCCESS_URL"; "PAYTRAIL_CANCEL_URL" ].
Proof.
  unfold loadPaytrailConfig; cbn.
  destruct (getEnv env "PAYTRAIL_MERCHANT_ID" "" =? "") eqn:H1; [discriminate|].
  destruct (getEnv env "PAYTRAIL_SECRET_KEY" "" =? "") eqn:H2; [discriminate|].
  destruct (getEnv env "PAYTRAIL_CALLBACK_URL" "" =? "") eqn:H3; [discriminate|].
  destruct (getEnv env "PAYTRAIL_SUCCESS_URL" "" =? "") eqn:H4; [discriminate|].
  destruct (getEnv env "PAYTRAIL_CANCEL_URL" "" =? "") eqn:H5; [discriminate|].
  intros _. repeat constructor; by apply getEnv_nonempty.
Qed.

Lemma loadKongConfig_None cfg cfg' :
  loadKongConfig env cfg = (cfg', None) -> os_Getenv env "KONG_INTERNAL_AUTH" <> "".
Proof.
  unfold loadKongConfig; cbn.
  destruct (getEnv env "KONG_INTERNAL_AUTH" "" =? "") eqn:H1; [discriminate|].
  intros _. by apply getEnv_nonempty.
Qed.

Lemma loadJWTConfig_None cfg cfg' :
  fst (loadJWTConfig env cfg) = (cfg', None) -> os_Getenv env "JWT_SECRET" <> "".
Proof.
  unfold loadJWTConfig; cbn.
  destruct (getEnv env "JWT_SECRET" "" =? "") eqn:H1; [discriminate|].
  intros _. by apply getEnv_nonempty.
Qed.

Lemma Load_Ok_inv cfg :
  fst (Load env) = Ok cfg ->
  Forall (fun key => os_Getenv env key <> "") required_vars /\ validate cfg = None.
Proof.
  unfold Load.
  destruct (getEnvAsBool env "DEBUG_MODE" false) as [debug w1].
  destruct (getEnvAsInt env "MAX_CONNECTIONS" 100) as [maxc w2].
  destruct (getEnvAsDuration env "TIMEOUT" (30 * Second)) as [tmo w3].
  cbn.
  destruct (getEnv env "DATABASE_URL" "" =? "") eqn:Hdb; [discriminate|].
  destruct (loadPaytrailConfig env _) as [c1 [e1|]] eqn:Hp; [discriminate|].
  destruct (loadKongConfig env c1) as [c2 [e2|]] eqn:Hk; [discriminate|].
  destruct (loadJWTConfig env c2) as [[c3 [e3|]] w4] eqn:Hj; [discriminate|].
  cbn.
  destruct (validate c3) as [e4|] eqn:Hv; [discriminate|].
  cbn. intros [= <-]. split; [|done].
  apply loadPaytrailConfig_None in Hp.
  apply loadKongConfig_None in Hk.
  apply (f_equal fst) in Hj; apply loadJWTConfig_None in Hj.
  apply getEnv_nonempty in Hdb.
  unfold required_vars.
  repeat match goal with H : Forall _ (_ :: _) |- _ => inversion_clear H end.
  repeat constructor; assumption.
Qed.

(** C8: every configuration that [Load] returns without error has an
    environment among development, staging and production, a timeout of
    at least one second, at least one connection and, in production,
    debug mode off and an access-token expiry of at most one hour. *)
Theorem Load_returns_validated cfg :
  fst (Load env) = Ok cfg -> validated cfg.
Proof. intros H. apply validate_None. by apply Load_Ok_inv in H as [_ ?]. Qed.

(** C9: [Load] returns an error, and no configuration, whenever one of
    the required variables is unset or empty. *)
Theorem Load_requires_vars key :
  In key required_vars ->
  env !! key = None \/ env !! key = Some "" ->
  exists e, fst (Load env) = Err e.
Proof.
  intros Hin Hempty%os_Getenv_unset_or_empty.
  destruct (fst (Load env)) as [cfg|e] eqn:HL; [|eauto].
  apply Load_Ok_inv in HL as [Hall _].
  rewrite Forall_forall in Hall. apply list_elem_of_In in Hin.
  by destruct (Hall key Hin).
Qed.

(** C10: the environment parsers always return a value: the supplied
    default when the variable is unset, empty, or not parseable, and the
    parsed value otherwise. *)
Theorem getEnvAs_parsed_or_default key :
  (forall d, fst (getEnvAsBool env key d)
             = parsed_or_default strconv_ParseBool env key d)
  /\ (forall d, fst (getEnvAsInt env key d)
                = parsed_or_default strconv_Atoi env key d)
  /\ (forall d, fst (getEnvAsDuration env key d)
                = parsed_or_default time_ParseDuration env key d).
Proof.
  unfold getEnvAsBool, getEnvAsInt, getEnvAsDuration, parsed_or_default.
  rewrite !getEnv_empty_default. unfold os_Getenv.
  repeat split; intros d; destruct (env !! key) as [s|]; simpl; try done.
  - destruct (s =? ""); [done|]. by destruct (strconv_ParseBool s) as [v [e|]].
  - destruct (s =? ""); [done|]. by destruct (strconv_Atoi s) as [v [e|]].
  - destruct (s =? ""); [done|]. by destruct (time_ParseDuration s) as [v [e|]].
Qed.

End Facts.

Lemma Load_returns_validated_witness :
  fst (Load sample_env) = Ok sample_config /\ validated sample_config.
Proof.
  assert (H : fst (Load sample_env) = Ok sample_config) by (vm_compute; reflexivity).
  split; [exact H | exact (Load_returns_validated sample_env sample_config H)].
Defined.

Lemma Load_requires_vars_witness :
  exists e, fst (Load (delete "JWT_SECRET" sample_env)) = Err e.
Proof.
  apply (Load_requires_vars (delete "JWT_SECRET" sample_env) "JWT_SECRET").
  - vm_compute. tauto.
  - left. vm_compute. reflexivity.
Defined.

End config_props.

(** ** The reference parsers *)
Module gostd_props.
Import gostd.

Example ParseBool_samples :
  map (fun s => fst (ParseBool s)) ["1"; "t"; "TRUE"; "0"; "f"; "False"]
  = [true; true; true; false; false; false]
  /\ snd (ParseBool "yes") <> None.
Proof. split; [reflexivity|discriminate]. Qed.

Example Atoi_samples :
  Atoi "42" = (42, None) /\ Atoi "-7" = (-7, None) /\ Atoi "+100" = (100, None)
  /\ snd (Atoi "") <> None /\ snd (Atoi "+") <> None /\ snd (Atoi "1_0") <> None
  /\ fst (Atoi "9223372036854775808") = 9223372036854775807
  /\ snd (Atoi "9223372036854775808") <> None
  /\ Atoi "-9223372036854775808" = (-9223372036854775808, None).
Proof. repeat split; (reflexivity || discriminate). Qed.

Example ParseDuration_samples :
  ParseDuration "30s" = (30 * config.Second, None)
  /\ ParseDuration "1h30m" = (90 * config.Minute, None)
  /\ ParseDuration "1.5h" = (90 * config.Minute, None)
  /\ ParseDuration "-2ms" = (-2 * config.Millisecond, None)
  /\ ParseDuration "0" = (0, None)
  /\ snd (ParseDuration "10") <> None
  /\ snd (ParseDuration "5x") <> None
  /\ snd (ParseDuration "") <> None.
Proof. repeat split; (reflexivity || discriminate). Qed.

Example Split_TrimSpace_samples :
  map TrimSpace (Split "10.0.0.1, 10.0.0.2 ,,x" ",") = ["10.0.0.1"; "10.0.0.2"; ""; "x"]
  /\ Split "" "," = [""].
Proof. split; reflexivity. Qed.

End gostd_props.

(** ** Logging *)
Module logger_props.
Import logger logger_spec main.

Lemma Logger_unique (l1 l2 : Logger) : l1 = l2.
Proof. by destruct l1, l2. Qed.

Lemma run_Println e msg std : run e msg std = log_Println [level e; msg] std.
Proof. by destruct e. Qed.

Lemma log_Println_changes args std : log_Println args std <> std.
Proof.
  destruct std as [w]. unfold log_Println; simpl. intros [= H].
  apply (f_equal List.length) in H. rewrite length_app in H. simpl in H. lia.
Qed.

(** C7, as stated, fails: the package-level function [Info] logs without
    any logger value, and what a [Logger] method logs lands in the standard
    logger shared by the whole process. *)
Lemma logging_not_through_injected_instance :
  receiver Func_Info = None
  /\ outputs (run Func_Info "Server exited" fresh_std)
     = ["INFO: Server exited" +:+ LF]
  /\ outputs (Logger_Info New "Server exited" fresh_std)
     = ["INFO: Server exited" +:+ LF]
  /\ ~ logging_needs_instance
  /\ ~ instance_spares_process_state
  /\ ~ logging_through_injected_instance.
Proof.
  assert (Hneeds : ~ logging_needs_instance).
  { intros Hrecv.
    destruct (Hrecv Func_Info "Server exited" fresh_std) as [l Hl].
    - apply log_Println_changes.
    - discriminate Hl. }
  assert (Hspares : ~ instance_spares_process_state).
  { intros Hsp. destruct (Hsp New "Server exited" fresh_std) as [Hinfo _].
    by apply log_Println_changes in Hinfo. }
  repeat split; try done. by intros [? _].
Qed.

(** C7, amended: [main] hands the logger it constructs to every handler
    constructor and to the logging middleware, and to nothing else it sets
    up; that logger carries no state, and each of its methods does exactly
    what the package-level function of the same name does: it writes one
    line through the standard logger of the process. *)
Theorem logger_passed_but_process_wide :
  (forall log, Forall (receives_logger log) (handlers log))
  /\ (forall log, Forall (fun c => receives_logger log c
                                  <-> constructor c = "middleware.Logging")
                         (middlewares log ++ others))
  /\ (forall l1 l2 : Logger, l1 = l2)
  /\ (forall l msg std,
        Logger_Info l msg std = Info msg std
        /\ Logger_Error l msg std = Error msg std
        /\ Logger_Debug l msg std = Debug msg std)
  /\ (forall e msg std,
        run e msg std = log_Println [level e; msg] std
        /\ outputs (run e msg std)
           = (outputs std ++ [level e +:+ " " +:+ msg +:+ LF])%list).
Proof.
  split; [|split; [|split; [|split]]].
  - intros log. unfold handlers, receives_logger.
    repeat (apply List.Forall_cons; [simpl; tauto|]). apply List.Forall_nil.
  - intros log. unfold middlewares, others, receives_logger. simpl.
    repeat (apply List.Forall_cons;
            [simpl; split; [intros H; repeat (destruct H as [H|H]; try discriminate H);
                            try done
                           |intros H; (discriminate H || (simpl; tauto))]|]).
    apply List.Forall_nil.
  - apply Logger_unique.
  - by intros l msg std.
  - intros e msg std. split; [apply run_Println|].
    rewrite run_Println. by destruct e.
Qed.

End logger_props.

(** ** Routing *)
Module routes_props.
Import main routes_spec.

Lemma match_literal tpl path :
  literal tpl = true ->
  match_tokens false (parse_template false tpl) path = true -> path = tpl.
Proof.
  revert path. induction tpl as [|c rest IH]; intros path; simpl.
  - intros _ H. by apply String.eqb_eq in H.
  - intros [Hc Hrest]%andb_prop.
    apply negb_true_iff in Hc. rewrite Hc.
    destruct path as [|d path']; [discriminate|].
    intros [Hcd Hm]%andb_prop. apply Ascii.eqb_eq in Hcd. subst d.
    f_equal. by apply IH.
Qed.

(** C6, as stated, fails: no route with the path [/orders/{id}/pay] is
    registered; such a request is answered by the router itself or, under
    the API prefix, by the not-found handler. *)
Lemma pay_under_orders_not_registered :
  dispatch setupRoutes "POST" "/orders/42/pay" = None
  /\ serves "POST" "/api/v1/orders/42/pay" api_not_found
  /\ ~ serves "POST" "/orders/42/pay" paymentHandler_CreatePayment
  /\ ~ serves "POST" "/api/v1/orders/42/pay" paymentHandler_CreatePayment
  /\ Forall (fun r => template r <> "/orders/{id}/pay"
                     /\ template r <> "/api/v1/orders/{id}/pay")
            (flatten "" [] setupRoutes).
Proof.
  repeat split; try (vm_compute; (reflexivity || discriminate)).
  vm_compute. repeat constructor; discriminate.
Qed.

Section WithDeps.
Context `{D : lifecycle.Deps}.
Import lifecycle.

Lemma initiatePayment_redirects st id o sess :
  orders (store st) !! id = Some o -> status o = PENDING ->
  openPayment o = Done sess ->
  snd (initiatePayment st id) = Redirect (redirectURL sess).
Proof.
  intros Ho Hs Hopen. unfold initiatePayment, getById, updateStatus.
  rewrite Ho. rewrite decide_True by done. rewrite Hopen.
  by rewrite decide_True by done.
Qed.

(** C6, amended: the route table maps payment initiation to
    [POST /api/v1/payments]: a request is served by
    [paymentHandler.CreatePayment] exactly when it is that request, and the
    route runs behind the JWT middleware; initiating the payment of a
    PENDING order returns the redirect URL of the gateway session. *)
Theorem payment_initiation_route method path :
  (serves method path paymentHandler_CreatePayment
   <-> method = "POST" /\ path = "/api/v1/payments")
  /\ (chain <$> dispatch setupRoutes "POST" "/api/v1/payments"
      = Some [middleware_Auth])
  /\ (forall st id o sess,
        orders (store st) !! id = Some o -> status o = PENDING ->
        openPayment o = Done sess ->
        snd (initiatePayment st id) = Redirect (redirectURL sess)).
Proof.
  split; [|split; [by vm_compute|apply initiatePayment_redirects]].
  split.
  - unfold serves, dispatch.
    destruct (List.find _ _) as [r|] eqn:Hfind; [|discriminate].
    simpl. intros [= Ht].
    apply find_some in Hfind as [Hin Hm].
    vm_compute in Hin.
    repeat (destruct Hin as [<- | Hin]; [try discriminate Ht|]); [|contradiction].
    unfold route_matches in Hm. apply andb_prop in Hm as [Hp Hmeth].
    apply match_literal in Hp; [|reflexivity].
    unfold method_ok in Hmeth; simpl in Hmeth.
    rewrite orb_false_r in Hmeth. apply String.eqb_eq in Hmeth.
    by subst.
  - intros [-> ->]. by vm_compute.
Qed.

End WithDeps.

Lemma payment_initiation_route_witness :
  serves "POST" "/api/v1/payments" paymentHandler_CreatePayment
  /\ snd (lifecycle.initiatePayment
            (lifecycle.run (firstn 4 lifecycle_spec.checkout)) 0)
     = lifecycle.Redirect "https://pay.example/session/0".
Proof.
  destruct (payment_initiation_route "POST" "/api/v1/payments")
    as [[_ Hserves] [_ Hredirect]].
  split; [by apply Hserves|].
  apply (Hredirect (lifecycle.run (firstn 4 lifecycle_spec.checkout)) 0%nat
                   (lifecycle_spec.scenario_order lifecycle.PENDING)
                   (lifecycle.mkSession "https://pay.example/session/0" "tx-0"));
    vm_compute; reflexivity.
Defined.

End routes_props.

(** ** The order store *)
Module store_props.
Import lifecycle lifecycle_spec.

Lemma updateStatus_match s id o fromStatus toStatus :
  orders s !! id = Some o -> status o = fromStatus ->
  updateStatus s id fromStatus toStatus
  = Done (set_orders (<[id := set_status toStatus o]> (orders s)) s, true).
Proof. intros Ho Hs. unfold updateStatus. rewrite Ho. by rewrite decide_True. Qed.

Lemma updateStatus_mismatch s id o fromStatus toStatus :
  orders s !! id = Some o -> status o <> fromStatus ->
  updateStatus s id fromStatus toStatus = Done (s, false).
Proof. intros Ho Hs. unfold updateStatus. rewrite Ho. by rewrite decide_False. Qed.

(** C5: [updateStatus] is a compare-and-swap on the status: it sets the
    status to [toStatus] and returns true exactly when the current status
    is [fromStatus]; otherwise it returns false and changes nothing. *)
Theorem updateStatus_compare_and_swap s id o fromStatus toStatus :
  orders s !! id = Some o ->
  exists s' b,
    updateStatus s id fromStatus toStatus = Done (s', b)
    /\ (b = true <-> status o = fromStatus)
    /\ (b = true ->
        orders s' !! id = Some (set_status toStatus o)
        /\ (forall j, j <> id -> orders s' !! j = orders s !! j)
        /\ attempts s' = attempts s)
    /\ (b = false -> s' = s).
Proof.
  intros Ho. destruct (decide (status o = fromStatus)) as [He|Hne].
  - eexists _, true. split; [by apply (updateStatus_match s id o)|].
    split; [done|]. split; [|done]. intros _. simpl.
    split; [by rewrite lookup_insert_eq|].
    split; [|done]. intros j Hj. by rewrite lookup_insert_ne.
  - exists s, false. split; [by apply (updateStatus_mismatch s id o)|].
    split; [split; [discriminate|done]|]. split; [discriminate|done].
Qed.

Lemma updateStatus_compare_and_swap_witness :
  exists s' b,
    updateStatus (store awaiting) 0 AWAITING_PAYMENT PAID = Done (s', b)
    /\ (b = true <-> status (scenario_order AWAITING_PAYMENT) = AWAITING_PAYMENT)
    /\ (b = true ->
        orders s' !! 0%nat = Some (set_status PAID (scenario_order AWAITING_PAYMENT))
        /\ (forall j, j <> 0%nat -> orders s' !! j = orders (store awaiting) !! j)
        /\ attempts s' = attempts (store awaiting))
    /\ (b = false -> s' = store awaiting).
Proof.
  apply (updateStatus_compare_and_swap (store awaiting) 0
           (scenario_order AWAITING_PAYMENT) AWAITING_PAYMENT PAID).
  vm_compute. reflexivity.
Defined.

End store_props.

(** ** The coordinator *)
Module coordinator_props.
Import lifecycle lifecycle_spec store_props.

Lemma live_step_refl o : live_step o o.
Proof. by left. Qed.

Lemma live_step_trans o1 o2 o3 :
  live_step o1 o2 -> live_step o2 o3 -> live_step o1 o3.
Proof.
  intros [-> | [Hlive [a ->]]]; [done|].
  intros [-> | [_ [b ->]]]; right; split; eauto.
Qed.

Lemma changes_only_live_refl s : changes_only_live s s.
Proof.
  split; [|done]. intros id. destruct (orders s !! id); constructor.
  apply live_step_refl.
Qed.

Lemma changes_only_live_trans s1 s2 s3 :
  changes_only_live s1 s2 -> changes_only_live s2 s3 -> changes_only_live s1 s3.
Proof.
  intros [H12 N12] [H23 N23]. split; [|congruence].
  intros id. specialize (H12 id). specialize (H23 id).
  destruct H12 as [o1 o2 R12|]; inversion H23 as [o2' o3 R23|]; subst; constructor.
  by apply (live_step_trans o1 o2 o3).
Qed.

Lemma updateStatus_live s id fromStatus toStatus s' b :
  terminal fromStatus = false ->
  updateStatus s id fromStatus toStatus = Done (s', b) ->
  changes_only_live s s' /\ attempts s' = attempts s
  /\ nextAttemptId s' = nextAttemptId s.
Proof.
  intros Hlive. unfold updateStatus.
  destruct (orders s !! id) as [o|] eqn:Ho; [|discriminate].
  case_decide as Hs.
  - intros [= <- <-]. split; [|done]. split; [|done].
    intros j. simpl. destruct (decide (j = id)) as [->|Hj].
    + rewrite lookup_insert_eq, Ho. constructor. right. subst. eauto.
    + rewrite lookup_insert_ne by done.
      destruct (orders s !! j); constructor. apply live_step_refl.
  - intros [= <- <-]. split; [apply changes_only_live_refl|done].
Qed.

Lemma settle_active_live id to now s : changes_only_live s (settle_active id to now s).
Proof.
  split; [|done]. intros j; simpl.
  destruct (orders s !! j); constructor. apply live_step_refl.
Qed.

Lemma updateStatus_settle_live s id fromStatus toStatus s' b ato now :
  terminal fromStatus = false ->
  updateStatus s id fromStatus toStatus = Done (s', b) ->
  changes_only_live s (settle_active id ato now s').
Proof.
  intros Hlive Hu. apply updateStatus_live in Hu as [Hl _]; [|done].
  eapply changes_only_live_trans; [exact Hl|apply settle_active_live].
Qed.

Lemma terminal_stays s s' id o :
  changes_only_live s s' -> orders s !! id = Some o -> terminal (status o) = true ->
  orders s' !! id = Some o.
Proof.
  intros [H _] Ho Ht. specialize (H id). rewrite Ho in H.
  inversion H as [? o' [-> | [Hlive _]]|]; subst; [done|congruence].
Qed.

Section WithDeps.
Context `{D : Deps}.

(** C1: whatever the payload says, a callback whose signature does not
    verify changes neither orders nor attempts: it is written to the log
    and rejected. *)
Theorem handleCallback_untrusted st headers body :
  verifySignature headers body = false ->
  handleCallback st headers body
  = (log_entry (UntrustedCallback headers body) st, Rejected UntrustedCallbackError)
  /\ store (fst (handleCallback st headers body)) = store st
  /\ journal (fst (handleCallback st headers body))
     = (journal st ++ [UntrustedCallback headers body])%list.
Proof. intros Hv. unfold handleCallback. by rewrite Hv. Qed.

Lemma handleCallback_live st headers body :
  changes_only_live (store st) (store (fst (handleCallback st headers body))).
Proof.
  unfold handleCallback.
  destruct (verifySignature headers body); simpl; [|apply changes_only_live_refl].
  unfold getById. destruct (orders (store st) !! cbOrder body) as [o|] eqn:Ho;
    [|apply changes_only_live_refl].
  destruct (terminal (status o)) eqn:Ht; [apply changes_only_live_refl|].
  case_decide; [|apply changes_only_live_refl].
  destruct (callback_transition (cbOutcome body)) as [to ato].
  destruct (updateStatus _ _ _ _) as [[s' [|]]|e] eqn:Hu;
    try apply changes_only_live_refl.
  simpl. eapply updateStatus_settle_live; [|exact Hu]. done.
Qed.

Lemma cancelOrder_live st id requester :
  changes_only_live (store st) (store (fst (cancelOrder st id requester))).
Proof.
  unfold cancelOrder, getById.
  destruct (orders (store st) !! id) as [o|] eqn:Ho; [|apply changes_only_live_refl].
  destruct (userId o =? requester); simpl; [|apply changes_only_live_refl].
  destruct (terminal (status o)) eqn:Ht; [apply changes_only_live_refl|].
  destruct (updateStatus _ _ _ _) as [[s' [|]]|e] eqn:Hu;
    try apply changes_only_live_refl.
  simpl. eapply updateStatus_settle_live; [|exact Hu]. done.
Qed.

Lemma initiatePayment_live st id :
  changes_only_live (store st) (store (fst (initiatePayment st id))).
Proof.
  unfold initiatePayment, getById.
  destruct (orders (store st) !! id) as [o|] eqn:Ho; [|apply changes_only_live_refl].
  case_decide; [|apply changes_only_live_refl].
  destruct (openPayment o) as [sess|e]; [|apply changes_only_live_refl].
  destruct (updateStatus _ _ _ _) as [[s' [|]]|e] eqn:Hu;
    try apply changes_only_live_refl.
  - simpl. by apply updateStatus_live in Hu as [[? ?] _].
  - destruct (active_attempt _ _); apply changes_only_live_refl.
Qed.

Lemma sweep_live now todo s : changes_only_live s (fst (sweep now todo s)).
Proof.
  revert s. induction todo as [|a rest IH]; intros s; simpl;
    [apply changes_only_live_refl|].
  destruct (stale now a); [|apply IH].
  destruct (updateStatus _ _ _ _) as [[s' [|]]|e] eqn:Hu; try apply IH.
  pose proof (updateStatus_settle_live s (attemptOrder a) AWAITING_PAYMENT EXPIRED
                s' true A_EXPIRED now eq_refl Hu) as Hl.
  specialize (IH (settle_active (attemptOrder a) A_EXPIRED now s')).
  destruct (sweep now rest _) as [s'' n]. simpl in *.
  by eapply changes_only_live_trans.
Qed.

Lemma expireStalePayments_live st now :
  changes_only_live (store st) (store (fst (expireStalePayments st now))).
Proof.
  unfold expireStalePayments.
  pose proof (sweep_live now (attempts (store st)) (store st)) as H.
  by destruct (sweep _ _ _) as [s' n].
Qed.

Lemma handleCallback_terminal st headers body o :
  verifySignature headers body = true ->
  orders (store st) !! cbOrder body = Some o -> terminal (status o) = true ->
  handleCallback st headers body = (st, Acknowledged).
Proof.
  intros Hv Ho Ht. unfold handleCallback, getById. by rewrite Hv, Ho, Ht.
Qed.

Lemma cancelOrder_terminal st id o :
  orders (store st) !! id = Some o -> terminal (status o) = true ->
  cancelOrder st id (userId o) = (st, Acknowledged).
Proof.
  intros Ho Ht. unfold cancelOrder, getById.
  by rewrite Ho, String.eqb_refl, Ht.
Qed.

(** C2: an order in PAID, CANCELLED or EXPIRED stays as it is under every
    callback delivery, every cancel request and every expiry sweep.  The
    provider always gets a success answer from the ingress; a callback that
    reaches the state machine (its signature verifies) and a cancel by the
    owner of the order are acknowledged with no change at all; the sweep,
    which reports a count and no error, passes the order by. *)
Theorem terminal_order_absorbs st id o :
  orders (store st) !! id = Some o -> terminal (status o) = true ->
  (forall headers body,
      orders (store (fst (handleCallback st headers body))) !! id = Some o
      /\ snd (callbackIngress st headers body) = 200%nat)
  /\ (forall headers body,
        cbOrder body = id -> verifySignature headers body = true ->
        handleCallback st headers body = (st, Acknowledged))
  /\ (forall id' requester,
        orders (store (fst (cancelOrder st id' requester))) !! id = Some o)
  /\ cancelOrder st id (userId o) = (st, Acknowledged)
  /\ (forall now,
        orders (store (fst (expireStalePayments st now))) !! id = Some o).
Proof.
  intros Ho Ht. split; [|split; [|split; [|split]]].
  - intros headers body. split; [|done].
    eapply terminal_stays; [apply handleCallback_live|done..].
  - intros headers body <- Hv. by eapply handleCallback_terminal.
  - intros id' requester.
    eapply terminal_stays; [apply cancelOrder_live|done..].
  - by apply cancelOrder_terminal.
  - intros now.
    eapply terminal_stays; [apply expireStalePayments_live|done..].
Qed.

(** C3: replaying a verified success callback for an order that is
    already PAID changes nothing and is acknowledged; delivering it twice
    gives the same orders and attempts as delivering it once. *)
Theorem handleCallback_replay_idempotent st headers body o :
  verifySignature headers body = true ->
  cbOutcome body = CB_SUCCESS ->
  orders (store st) !! cbOrder body = Some o -> status o = PAID ->
  handleCallback st headers body = (st, Acknowledged)
  /\ handleCallback (fst (handleCallback st headers body)) headers body
     = (fst (handleCallback st headers body), Acknowledged).
Proof.
  intros Hv _ Ho Hs.
  assert (H : handleCallback st headers body = (st, Acknowledged)).
  { eapply handleCallback_terminal; [done..|]. by rewrite Hs. }
  split; [done|]. by rewrite H.
Qed.

(** The first delivery, for an order that awaits payment, makes it PAID;
    the replay then finds it PAID. *)
Lemma handleCallback_pays_then_replays st headers body o :
  verifySignature headers body = true ->
  cbOutcome body = CB_SUCCESS ->
  orders (store st) !! cbOrder body = Some o -> status o = AWAITING_PAYMENT ->
  let st1 := fst (handleCallback st headers body) in
  orders (store st1) !! cbOrder body = Some (set_status PAID o)
  /\ handleCallback st1 headers body = (st1, Acknowledged).
Proof.
  intros Hv Hok Ho Hs st1.
  assert (H1 : orders (store st1) !! cbOrder body = Some (set_status PAID o)).
  { subst st1. unfold handleCallback, getById. rewrite Hv, Ho, Hs, Hok. simpl.
    rewrite (updateStatus_match _ _ o) by done. simpl.
    by rewrite lookup_insert_eq. }
  split; [done|]. by eapply handleCallback_terminal.
Qed.

(** *** The total of an order *)

Lemma live_step_items o o' :
  live_step o o' -> total o' = total o /\ lines o' = lines o.
Proof. by intros [-> | [_ [a ->]]]. Qed.

Lemma changes_only_live_inv s s' :
  changes_only_live s s' ->
  (totals_consistent s -> totals_consistent s')
  /\ (fresh_ids s -> fresh_ids s')
  /\ (forall id o, orders s !! id = Some o ->
        exists o', orders s' !! id = Some o' /\ total o' = total o /\ lines o' = lines o).
Proof.
  intros [H N]. repeat split.
  - intros Hc id o' Ho'. specialize (H id). rewrite Ho' in H.
    inversion H as [o ? Hstep|]; subst.
    apply live_step_items in Hstep as [-> ->]. by eapply Hc.
  - intros Hf id Hid. rewrite N in Hid. specialize (H id).
    rewrite (Hf id Hid) in H. by inversion H.
  - intros id o Ho. specialize (H id). rewrite Ho in H.
    inversion H as [? o' Hstep|]; subst. exists o'. split; [done|].
    by apply live_step_items.
Qed.

Lemma store_createOrder_inv user cur snapshot s :
  let s' := fst (store_createOrder user cur snapshot s) in
  (totals_consistent s -> totals_consistent s')
  /\ (fresh_ids s -> fresh_ids s')
  /\ (fresh_ids s -> forall id o, orders s !! id = Some o -> orders s' !! id = Some o).
Proof.
  simpl. repeat split.
  - intros Hc id o. simpl. destruct (decide (id = nextOrderId s)) as [->|Hne].
    + rewrite lookup_insert_eq. by intros [= <-].
    + rewrite lookup_insert_ne by done. apply Hc.
  - intros Hf id. simpl. intros Hid.
    rewrite lookup_insert_ne by lia. apply Hf. lia.
  - intros Hf id o Ho. simpl.
    destruct (decide (id = nextOrderId s)) as [->|Hne].
    + rewrite Hf in Ho by lia. discriminate.
    + by rewrite lookup_insert_ne.
Qed.

(** Every step either leaves the orders to [changes_only_live] or is the
    creation of one order. *)
Lemma step_store st op :
  changes_only_live (store st) (store (step st op))
  \/ exists user snapshot,
       store (step st op) = fst (store_createOrder user shopCurrency snapshot (store st)).
Proof.
  destruct op as [user|id|headers body|id requester|now|user cart|product p|now]; simpl.
  - unfold createOrder. destruct (resolveCart _ _ _) as [snapshot|e].
    + right. by exists user, snapshot.
    + left. apply changes_only_live_refl.
  - left. apply initiatePayment_live.
  - left. apply handleCallback_live.
  - left. apply cancelOrder_live.
  - left. apply expireStalePayments_live.
  - left. apply changes_only_live_refl.
  - left. apply changes_only_live_refl.
  - left. apply changes_only_live_refl.
Qed.

Lemma step_inv st op :
  totals_consistent (store st) /\ fresh_ids (store st) ->
  (totals_consistent (store (step st op)) /\ fresh_ids (store (step st op)))
  /\ (forall id o, orders (store st) !! id = Some o ->
        exists o', orders (store (step st op)) !! id = Some o'
                   /\ total o' = total o /\ lines o' = lines o).
Proof.
  intros [Hc Hf]. destruct (step_store st op) as [Hl | (user & snapshot & ->)].
  - apply changes_only_live_inv in Hl as (H1 & H2 & H3). auto.
  - destruct (store_createOrder_inv user shopCurrency snapshot (store st))
      as (H1 & H2 & H3).
    repeat split; auto. intros id o Ho. exists o. auto.
Qed.

Lemma run_app ops op : run (ops ++ [op]) = step (run ops) op.
Proof. unfold run. by rewrite fold_left_app. Qed.

Lemma run_inv ops :
  totals_consistent (store (run ops)) /\ fresh_ids (store (run ops)).
Proof.
  induction ops as [|op ops IH] using rev_ind.
  - split; intros id; simpl; [intros o|intros _]; by rewrite lookup_empty.
  - rewrite run_app. by apply step_inv.
Qed.

(** C4: in every state the system can reach, the total of every order is
    the sum over its line items of quantity times unit price, and no
    operation changes the total or the line items of an order. *)
Theorem total_is_sum_of_lines ops :
  (forall id o, orders (store (run ops)) !! id = Some o ->
                total o = lines_total (lines o))
  /\ (forall op id o, orders (store (run ops)) !! id = Some o ->
        exists o', orders (store (step (run ops) op)) !! id = Some o'
                   /\ total o' = total o /\ lines o' = lines o
                   /\ total o' = lines_total (lines o')).
Proof.
  pose proof (run_inv ops) as Hinv. split; [apply Hinv|].
  intros op id o Ho.
  destruct (step_inv (run ops) op Hinv) as [[Hc' _] Hkeep].
  destruct (Hkeep id o Ho) as (o' & Ho' & Ht & Hl).
  exists o'. repeat split; try done. by eapply Hc'.
Qed.

End WithDeps.

Lemma handleCallback_untrusted_witness :
  handleCallback awaiting (forged paid_callback) paid_callback
  = (log_entry (UntrustedCallback (forged paid_callback) paid_callback) awaiting,
     Rejected UntrustedCallbackError)
  /\ store (fst (handleCallback awaiting (forged paid_callback) paid_callback))
     = store awaiting
  /\ journal (fst (handleCallback awaiting (forged paid_callback) paid_callback))
     = (journal awaiting ++ [UntrustedCallback (forged paid_callback) paid_callback])%list.
Proof.
  apply (handleCallback_untrusted awaiting (forged paid_callback) paid_callback).
  vm_compute. reflexivity.
Defined.

Lemma terminal_order_absorbs_witness :
  (orders (store paid) !! 0%nat = Some (scenario_order PAID)
   /\ terminal (status (scenario_order PAID)) = true)
  /\ (forall headers body,
        orders (store (fst (handleCallback paid headers body))) !! 0%nat
        = Some (scenario_order PAID)
        /\ snd (callbackIngress paid headers body) = 200%nat)
  /\ (forall headers body,
        cbOrder body = 0%nat -> verifySignature headers body = true ->
        handleCallback paid headers body = (paid, Acknowledged))
  /\ (forall id' requester,
        orders (store (fst (cancelOrder paid id' requester))) !! 0%nat
        = Some (scenario_order PAID))
  /\ cancelOrder paid 0 (userId (scenario_order PAID)) = (paid, Acknowledged)
  /\ (forall now,
        orders (store (fst (expireStalePayments paid now))) !! 0%nat
        = Some (scenario_order PAID)).
Proof.
  assert (H1 : orders (store paid) !! 0%nat = Some (scenario_order PAID))
    by (vm_compute; reflexivity).
  assert (H2 : terminal (status (scenario_order PAID)) = true) by reflexivity.
  split; [by split|].
  exact (terminal_order_absorbs paid 0 (scenario_order PAID) H1 H2).
Defined.

Lemma handleCallback_replay_idempotent_witness :
  handleCallback paid (signed paid_callback) paid_callback = (paid, Acknowledged)
  /\ handleCallback (fst (handleCallback paid (signed paid_callback) paid_callback))
                    (signed paid_callback) paid_callback
     = (fst (handleCallback paid (signed paid_callback) paid_callback), Acknowledged).
Proof.
  apply (handleCallback_replay_idempotent paid (signed paid_callback) paid_callback
           (scenario_order PAID)); vm_compute; reflexivity.
Defined.

Lemma total_is_sum_of_lines_witness :
  total (scenario_order AWAITING_PAYMENT)
  = lines_total (lines (scenario_order AWAITING_PAYMENT))
  /\ exists o',
       orders (store (step (run checkout)
                           (OpHandleCallback (signed paid_callback) paid_callback)))
         !! 0%nat = Some o'
       /\ total o' = total (scenario_order AWAITING_PAYMENT)
       /\ lines o' = lines (scenario_order AWAITING_PAYMENT)
       /\ total o' = lines_total (lines o').
Proof.
  assert (H : orders (store (run checkout)) !! 0%nat
              = Some (scenario_order AWAITING_PAYMENT)) by (vm_compute; reflexivity).
  destruct (total_is_sum_of_lines checkout) as [Hsum Hkeep].
  split; [exact (Hsum 0%nat _ H)|].
  exact (Hkeep (OpHandleCallback (signed paid_callback) paid_callback) 0%nat _ H).
Defined.

(** The scenario of section 8, step by step. *)
Example scenario_created :
  orders (store (run (firstn 4 checkout))) !! 0%nat = Some (scenario_order PENDING).
Proof. by vm_compute. Qed.

Example scenario_awaiting :
  orders (store awaiting) !! 0%nat = Some (scenario_order AWAITING_PAYMENT)
  /\ attemptStatus <$> active_attempt (store awaiting) 0 = Some A_ACTIVE
  /\ snd (initiatePayment (run (firstn 4 checkout)) 0)
     = Redirect "https://pay.example/session/0".
Proof. by vm_compute. Qed.

Example scenario_paid :
  orders (store paid) !! 0%nat = Some (scenario_order PAID)
  /\ map attemptStatus (attempts (store paid)) = [A_CONFIRMED]
  /\ handleCallback paid (signed paid_callback) paid_callback = (paid, Acknowledged).
Proof. by vm_compute. Qed.

Example scenario_pay_after_cancel :
  let cancelled := fst (cancelOrder awaiting 0 "alice") in
  status <$> orders (store cancelled) !! 0%nat = Some CANCELLED
  /\ initiatePayment cancelled 0 = (cancelled, Conflict CANCELLED).
Proof. by vm_compute. Qed.

End coordinator_props.


(** ** More on configuration loading *)
Module load_props.
Import config config_spec load_spec config_props.

Section Facts.
Context `{Std : GoStd}.
Variable env : gmap string string.

Lemma Load_decompose :
  Load env
  = (match first_missing env with
     | Some key => Err (required_error key)
     | None =>
         match validate (assembled env) with
         | Some e => Err (Errorf_w "configuration validation failed: " e)
         | None => Ok (assembled env)
         end
     end,
     snd (getEnvAsBool env "DEBUG_MODE" false)
     ++ snd (getEnvAsInt env "MAX_CONNECTIONS" 100)
     ++ snd (getEnvAsDuration env "TIMEOUT" (30 * Second))
     ++ match first_missing env with
        | Some _ => []
        | None =>
            snd (getEnvAsDuration env "JWT_ACCESS_TOKEN_EXPIRY" (15 * Minute))
            ++ snd (getEnvAsDuration env "JWT_REFRESH_TOKEN_EXPIRY" (7 * 24 * Hour))
        end)%list.
Proof.
  unfold Load, assembled, first_missing, required_vars.
  destruct (getEnvAsBool env "DEBUG_MODE" false) as [debug w1].
  destruct (getEnvAsInt env "MAX_CONNECTIONS" 100) as [maxc w2].
  destruct (getEnvAsDuration env "TIMEOUT" (30 * Second)) as [tmo w3].
  cbn.
  rewrite !getEnv_empty_default.
  destruct (os_Getenv env "DATABASE_URL" =? "") eqn:H0; [reflexivity|].
  unfold loadPaytrailConfig; cbn. rewrite !getEnv_empty_default.
  destruct (os_Getenv env "PAYTRAIL_MERCHANT_ID" =? "") eqn:H1; [reflexivity|].
  destruct (os_Getenv env "PAYTRAIL_SECRET_KEY" =? "") eqn:H2; [reflexivity|].
  destruct (os_Getenv env "PAYTRAIL_CALLBACK_URL" =? "") eqn:H3; [reflexivity|].
  destruct (os_Getenv env "PAYTRAIL_SUCCESS_URL" =? "") eqn:H4; [reflexivity|].
  destruct (os_Getenv env "PAYTRAIL_CANCEL_URL" =? "") eqn:H5; [reflexivity|].
  unfold loadKongConfig; cbn. rewrite !getEnv_empty_default.
  destruct (os_Getenv env "KONG_INTERNAL_AUTH" =? "") eqn:H6; [reflexivity|].
  unfold loadJWTConfig; cbn. rewrite !getEnv_empty_default.
  destruct (os_Getenv env "JWT_SECRET" =? "") eqn:H7; [reflexivity|].
  destruct (getEnvAsDuration env "JWT_ACCESS_TOKEN_EXPIRY" (15 * Minute)) as [acc w4].
  destruct (getEnvAsDuration env "JWT_REFRESH_TOKEN_EXPIRY" (7 * 24 * Hour)) as [ref w5].
  cbn.
  cbv beta iota delta
      [set_Port set_Environment set_DebugMode set_DatabaseURL set_MaxConnections
       set_Timeout set_Paytrail set_Kong set_JWT set_MerchantID set_SecretKey
       set_BaseURL set_CallbackURL set_SuccessURL set_CancelURL set_InternalAuth
       set_AllowedIPs set_AdminAPIURL set_ServiceURL set_Secret
       set_AccessTokenExpiry set_RefreshTokenExpiry
       Port Environment DebugMode DatabaseURL MaxConnections Timeout Paytrail
       Kong JWT MerchantID SecretKey BaseURL CallbackURL SuccessURL CancelURL
       InternalAuth AllowedIPs AdminAPIURL ServiceURL Secret AccessTokenExpiry
       RefreshTokenExpiry].
  destruct (validate _); cbn; by rewrite !app_nil_r.
Qed.

Lemma find_first {A} (f : A -> bool) pre x post :
  Forall (fun y => f y = false) pre -> f x = true ->
  List.find f (pre ++ x :: post) = Some x.
Proof.
  induction 1 as [|y pre Hy _ IH]; intros Hx; simpl.
  - by rewrite Hx.
  - rewrite Hy. by apply IH.
Qed.

Lemma first_missing_None :
  first_missing env = None
  <-> Forall (fun key => os_Getenv env key <> "") required_vars.
Proof.
  unfold first_missing. split.
  - intros H. apply Forall_forall. intros key Hin%list_elem_of_In.
    apply (find_none _ _ H) in Hin. by apply String.eqb_neq.
  - intros H. destruct (List.find _ _) as [key|] eqn:Hf; [|done].
    apply find_some in Hf as [Hin%list_elem_of_In Hk%String.eqb_eq].
    rewrite Forall_forall in H. by destruct (H key Hin).
Qed.

(** X1: the error of [Load] names the first required variable, in the
    order DATABASE_URL, PAYTRAIL_MERCHANT_ID, PAYTRAIL_SECRET_KEY,
    PAYTRAIL_CALLBACK_URL, PAYTRAIL_SUCCESS_URL, PAYTRAIL_CANCEL_URL,
    KONG_INTERNAL_AUTH, JWT_SECRET, that is unset or empty, whatever the
    later ones and the optional ones hold. *)
Theorem Load_reports_first_missing pre key post :
  required_vars = (pre ++ key :: post)%list ->
  Forall (fun k => os_Getenv env k <> "") pre ->
  os_Getenv env key = "" ->
  fst (Load env) = Err (required_error key).
Proof.
  intros Hsplit Hpre Hkey. rewrite Load_decompose. simpl.
  unfold first_missing. rewrite Hsplit.
  rewrite (find_first _ pre key post); [done| |by apply String.eqb_eq].
  eapply Forall_impl; [exact Hpre|]. intros k Hk. by apply String.eqb_neq.
Qed.

(** X2: [Load] returns a configuration exactly when every required
    variable is set and not empty and the values read, each variable's value
    or its default, pass [validate]; the configuration is made of exactly
    those values. *)
Theorem Load_succeeds_iff cfg :
  fst (Load env) = Ok cfg
  <-> Forall (fun key => os_Getenv env key <> "") required_vars
      /\ validate (assembled env) = None
      /\ cfg = assembled env.
Proof.
  rewrite Load_decompose. simpl. rewrite <- first_missing_None. split.
  - destruct (first_missing env); [discriminate|].
    destruct (validate (assembled env)); [discriminate|].
    by intros [= <-].
  - intros (-> & -> & ->). done.
Qed.

Lemma getEnv_unset key d : os_Getenv env key = "" -> getEnv env key d = d.
Proof. unfold getEnv. by intros ->. Qed.

Lemma getEnvAsBool_unset key d :
  os_Getenv env key = "" -> getEnvAsBool env key d = (d, []).
Proof. intros H. unfold getEnvAsBool. by rewrite getEnv_empty_default, H. Qed.

Lemma getEnvAsInt_unset key d :
  os_Getenv env key = "" -> getEnvAsInt env key d = (d, []).
Proof. intros H. unfold getEnvAsInt. by rewrite getEnv_empty_default, H. Qed.

Lemma getEnvAsDuration_unset key d :
  os_Getenv env key = "" -> getEnvAsDuration env key d = (d, []).
Proof. intros H. unfold getEnvAsDuration. by rewrite getEnv_empty_default, H. Qed.

(** X3: with the required variables set and every optional one unset or
    empty, [Load] prints nothing and returns the defaults: port 8080,
    development, debug off, 100 connections, a 30 s timeout, the Paytrail
    service URL, no allowed IPs, the local Kong service URL, access tokens
    of 15 minutes and refresh tokens of 7 days. *)
Theorem Load_defaults :
  Forall (fun key => os_Getenv env key <> "") required_vars ->
  Forall (fun key => os_Getenv env key = "") optional_vars ->
  Load env
  = (Ok (mkConfig "8080" "development" false (os_Getenv env "DATABASE_URL") 100
                  (30 * Second)
                  (mkPaytrail (os_Getenv env "PAYTRAIL_MERCHANT_ID")
                              (os_Getenv env "PAYTRAIL_SECRET_KEY")
                              "https://services.paytrail.com"
                              (os_Getenv env "PAYTRAIL_CALLBACK_URL")
                              (os_Getenv env "PAYTRAIL_SUCCESS_URL")
                              (os_Getenv env "PAYTRAIL_CANCEL_URL"))
                  (mkKong (os_Getenv env "KONG_INTERNAL_AUTH") [] ""
                          "http://localhost:8080")
                  (mkJWT (os_Getenv env "JWT_SECRET") (15 * Minute) (7 * 24 * Hour))),
     []).
Proof.
  intros Hreq Hopt. rewrite Load_decompose.
  apply first_missing_None in Hreq. rewrite Hreq.
  unfold optional_vars in Hopt.
  repeat match goal with H : Forall _ (_ :: _) |- _ => inversion_clear H end.
  unfold assembled, getEnvAsSlice.
  repeat match goal with
         | H : os_Getenv env ?k = "" |- _ =>
             rewrite ?(getEnv_unset k _ H), ?(getEnvAsBool_unset k _ H),
               ?(getEnvAsInt_unset k _ H), ?(getEnvAsDuration_unset k _ H);
             try rewrite H; clear H
         end.
  reflexivity.
Qed.

(** X4: a value of ENVIRONMENT other than development, staging or
    production makes [Load] fail with a message that quotes the value, when
    every required variable is present. *)
Theorem Load_rejects_unknown_environment v :
  Forall (fun key => os_Getenv env key <> "") required_vars ->
  os_Getenv env "ENVIRONMENT" = v -> v <> "" ->
  v <> "development" -> v <> "staging" -> v <> "production" ->
  fst (Load env)
  = Err ("configuration validation failed: invalid environment: " +:+ v +:+
         " (must be development, staging, or production)").
Proof.
  intros Hreq Hv Hne H1 H2 H3. rewrite Load_decompose. simpl.
  apply first_missing_None in Hreq. rewrite Hreq.
  assert (He : Environment (assembled env) = v).
  { simpl. unfold getEnv. rewrite Hv.
    apply String.eqb_neq in Hne. by rewrite Hne. }
  unfold validate. rewrite He.
  unfold validEnvs. rewrite !lookup_insert, lookup_empty.
  rewrite !decide_False by done. done.
Qed.

(** X5: [validate] accepts exactly the configurations whose environment is
    one of the three, whose timeout is at least a second, which allow at
    least one connection and which, in production, have debug mode off and
    access tokens of at most an hour. *)
Theorem validate_accepts_iff c : validate c = None <-> validated c.
Proof.
  split; [apply validate_None|].
  intros (Henv & Ht & Hm & Hprod). unfold validate.
  assert (Hv : default false (validEnvs !! Environment c) = true).
  { unfold validEnvs. by destruct Henv as [-> | [-> | ->]]. }
  rewrite Hv. simpl.
  destruct (Environment c =? "production") eqn:Hp; simpl.
  - apply String.eqb_eq in Hp. destruct (Hprod Hp) as [-> Ha]. simpl.
    destruct (Z.gtb_spec (AccessTokenExpiry (JWT c)) Hour); [lia|].
    destruct (Z.ltb_spec (Timeout c) Second); [lia|].
    destruct (Z.ltb_spec (MaxConnections c) 1); [lia|done].
  - destruct (Z.ltb_spec (Timeout c) Second); [lia|].
    destruct (Z.ltb_spec (MaxConnections c) 1); [lia|done].
Qed.





End Facts.

(** X7: [getEnv] reads back a value that was set, unless the value is the
    empty string, which counts as unset: the default is returned then, as
    it is for a variable that was removed; other variables are not
    affected. *)
Theorem getEnv_set_and_read (env : gmap string string) (key v d : string) :
  (v <> "" -> getEnv (<[key := v]> env) key d = v)
  /\ getEnv (<[key := ""]> env) key d = d
  /\ getEnv (delete key env) key d = d
  /\ (forall key', key' <> key ->
        getEnv (<[key := v]> env) key' d = getEnv env key' d
        /\ getEnv (delete key env) key' d = getEnv env key' d).
Proof.
  unfold getEnv, os_Getenv. repeat split.
  - intros Hv. rewrite lookup_insert_eq. simpl.
    apply String.eqb_neq in Hv. by rewrite Hv.
  - by rewrite lookup_insert_eq.
  - by rewrite lookup_delete_eq.
  - by rewrite lookup_insert_ne.
  - by rewrite lookup_delete_ne.
Qed.

(** X19: [Load] depends on the environment only through [os.Getenv] of
    the nineteen variables it names: two environments that give those the
    same values, an unset variable counting as an empty one, give the same
    result and the same output, whatever else they hold. *)
Theorem Load_reads_known_vars_only `{Std : GoStd} (env env' : gmap string string) :
  (forall key, In key known_vars -> os_Getenv env key = os_Getenv env' key) ->
  Load env = Load env'.
Proof.
  intros H. rewrite !Load_decompose.
  unfold first_missing, required_vars, assembled, getEnvAsBool, getEnvAsInt,
    getEnvAsDuration, getEnvAsSlice, getEnv.
  cbn [List.find].
  repeat match goal with
         | |- context [os_Getenv env ?k] =>
             rewrite (H k) by (unfold known_vars, required_vars, optional_vars;
                               simpl; tauto)
         end.
  reflexivity.
Qed.

Lemma Load_reads_known_vars_only_witness :
  Load (<["HOME" := "/root"]> (<["PORT" := ""]> minimal_env)) = Load minimal_env.
Proof.
  apply Load_reads_known_vars_only.
  intros key Hin. unfold known_vars, required_vars, optional_vars in Hin.
  simpl in Hin.
  repeat (destruct Hin as [<- | Hin]; [vm_compute; reflexivity|]).
  contradiction.
Defined.

Lemma Load_reports_first_missing_witness :
  fst (Load (<["PAYTRAIL_SUCCESS_URL" := ""]> (delete "JWT_SECRET" sample_env)))
  = Err "paytrail configuration error: PAYTRAIL_SUCCESS_URL is required".
Proof.
  apply (Load_reports_first_missing
           (<["PAYTRAIL_SUCCESS_URL" := ""]> (delete "JWT_SECRET" sample_env))
           [ "DATABASE_URL"; "PAYTRAIL_MERCHANT_ID"; "PAYTRAIL_SECRET_KEY";
             "PAYTRAIL_CALLBACK_URL" ]
           "PAYTRAIL_SUCCESS_URL"
           [ "PAYTRAIL_CANCEL_URL"; "KONG_INTERNAL_AUTH"; "JWT_SECRET" ]).
  - reflexivity.
  - repeat constructor; vm_compute; discriminate.
  - vm_compute. reflexivity.
Defined.

Lemma Load_defaults_witness :
  Load minimal_env
  = (Ok (mkConfig "8080" "development" false "postgres://shop@db/shockbliss" 100
                  (30 * Second)
                  (mkPaytrail "375917" "SAIPPUAKAUPPIAS" "https://services.paytrail.com"
                              "https://shop.example/api/v1/payments/callback"
                              "https://shop.example/api/v1/payments/success"
                              "https://shop.example/api/v1/payments/cancel")
                  (mkKong "kong-shared" [] "" "http://localhost:8080")
                  (mkJWT "jwt-secret" (15 * Minute) (7 * 24 * Hour))),
     []).
Proof.
  apply (Load_defaults minimal_env).
  - repeat constructor; vm_compute; discriminate.
  - repeat constructor; vm_compute; reflexivity.
Defined.

Lemma Load_rejects_unknown_environment_witness :
  fst (Load (<["ENVIRONMENT" := "test"]> minimal_env))
  = Err ("configuration validation failed: invalid environment: test" +:+
         " (must be development, staging, or production)").
Proof.
  apply (Load_rejects_unknown_environment (<["ENVIRONMENT" := "test"]> minimal_env) "test").
  - repeat constructor; vm_compute; discriminate.
  - vm_compute. reflexivity.
  - discriminate.
  - discriminate.
  - discriminate.
  - discriminate.
Defined.


Lemma getEnv_set_and_read_witness :
  getEnv (<["PORT" := "9090"]> minimal_env) "PORT" "8080" = "9090".
Proof.
  apply (getEnv_set_and_read minimal_env "PORT" "9090" "8080"). discriminate.
Defined.

End load_props.


(** ** Startup *)
Module startup_props.
Import config config_spec load_spec config_props startup.

Section Facts.
Context `{Std : GoStd}.
Variable env : gmap string string.

(** X8: for a configuration returned by [Load], the log level [main]
    picks is warn exactly in production, debug exactly when debug mode is
    on, and info otherwise; debug mode and production exclude each other,
    so the order of the two tests in [main] does not matter. *)
Theorem logLevel_of_loaded cfg :
  fst (Load env) = Ok cfg ->
  (logLevel cfg = "warn" <-> Environment cfg = "production")
  /\ (logLevel cfg = "debug" <-> DebugMode cfg = true)
  /\ (logLevel cfg = "info"
      <-> Environment cfg <> "production" /\ DebugMode cfg = false).
Proof.
  intros HL. apply Load_Ok_inv in HL as [_ Hv]. apply validate_None in Hv.
  destruct Hv as (_ & _ & _ & Hprod).
  unfold logLevel, IsProduction.
  destruct (Environment cfg =? "production") eqn:Hp.
  - apply String.eqb_eq in Hp. destruct (Hprod Hp) as [Hd _]. rewrite Hd.
    repeat split; try done; try discriminate. by intros [? _].
  - apply String.eqb_neq in Hp.
    destruct (DebugMode cfg); repeat split; try done; try discriminate.
    by intros [_ ?].
Qed.

Lemma wrap64_double_small t : 0 <= t < 2 ^ 62 -> wrap64 (t * 2) = t * 2.
Proof. intros H. unfold wrap64. rewrite Z.mod_small; lia. Qed.

Lemma wrap64_double_large t :
  2 ^ 62 <= t < 2 ^ 63 -> wrap64 (t * 2) = t * 2 - 2 ^ 64.
Proof.
  intros H. unfold wrap64.
  rewrite <- (Zmod_unique (t * 2 + 2 ^ 63) (2 ^ 64) 1 (t * 2 + 2 ^ 63 - 2 ^ 64)); lia.
Qed.

(** X9: the server [main] builds for a configuration returned by [Load]
    listens on the configured port, reads and writes with the configured
    timeout, which is at least a second, and keeps idle connections for
    twice as long, as long as the timeout is below 2^62 ns. *)
Theorem newServer_of_loaded cfg :
  fst (Load env) = Ok cfg -> Timeout cfg < 2 ^ 62 ->
  Addr (newServer cfg) = ":" +:+ getEnv env "PORT" "8080"
  /\ ReadTimeout (newServer cfg) = Timeout cfg
  /\ WriteTimeout (newServer cfg) = Timeout cfg
  /\ Second <= ReadTimeout (newServer cfg)
  /\ IdleTimeout (newServer cfg) = 2 * Timeout cfg
  /\ 2 * Second <= IdleTimeout (newServer cfg).
Proof.
  intros HL Hlt.
  pose proof (load_props.Load_decompose env) as Hd.
  apply (f_equal fst) in Hd. rewrite HL in Hd. simpl in Hd.
  assert (Hport : Port cfg = getEnv env "PORT" "8080").
  { destruct (first_missing env); [discriminate|].
    destruct (validate (assembled env)); [discriminate|]. by injection Hd as ->. }
  apply Load_Ok_inv in HL as [_ Hv]. apply validate_None in Hv.
  destruct Hv as (_ & Ht & _ & _).
  assert (Hs : Second = 1000000000) by reflexivity.
  unfold newServer; simpl. rewrite Hport.
  rewrite wrap64_double_small by lia. repeat split; lia.
Qed.

(** X10: doubling the timeout is done in [int64]: for a timeout from
    2^62 ns up (about 146 years) the idle timeout [main] hands to the server
    wraps around and is negative. *)
Theorem newServer_idle_wraps cfg :
  2 ^ 62 <= Timeout cfg < 2 ^ 63 ->
  IdleTimeout (newServer cfg) = 2 * Timeout cfg - 2 ^ 64
  /\ IdleTimeout (newServer cfg) < 0.
Proof.
  intros H. unfold newServer; simpl. rewrite wrap64_double_large by done. lia.
Qed.

(** X11: [Load] only returns a configuration whose Kong secret is not
    empty, so the test in [main] before installing the Kong middleware
    always succeeds: the five middlewares are installed, in order. *)
Theorem router_Use_of_loaded cfg log :
  fst (Load env) = Ok cfg ->
  InternalAuth (Kong cfg) = os_Getenv env "KONG_INTERNAL_AUTH"
  /\ InternalAuth (Kong cfg) <> ""
  /\ router_Use cfg log = main.middlewares log.
Proof.
  intros HL.
  pose proof (load_props.Load_decompose env) as Hd.
  apply (f_equal fst) in Hd. rewrite HL in Hd. simpl in Hd.
  assert (Hk : InternalAuth (Kong cfg) = os_Getenv env "KONG_INTERNAL_AUTH").
  { destruct (first_missing env); [discriminate|].
    destruct (validate (assembled env)); [discriminate|]. by injection Hd as ->. }
  apply Load_Ok_inv in HL as [Hall _].
  rewrite Forall_forall in Hall.
  assert (Hne : os_Getenv env "KONG_INTERNAL_AUTH" <> "").
  { apply Hall. unfold required_vars. set_solver. }
  split; [done|]. split; [congruence|].
  unfold router_Use, main.middlewares. rewrite Hk.
  apply String.eqb_neq in Hne. by rewrite Hne.
Qed.

(** X17: [IsProduction] and [IsDevelopment] never hold together, and for
    a configuration returned by [Load] both are false exactly in staging,
    so a configuration that is not in production need not be in
    development. *)
Theorem environment_predicates cfg :
  fst (Load env) = Ok cfg ->
  IsProduction cfg && IsDevelopment cfg = false
  /\ (IsProduction cfg = false /\ IsDevelopment cfg = false
      <-> Environment cfg = "staging").
Proof.
  intros HL. apply Load_Ok_inv in HL as [_ Hv]. apply validate_None in Hv.
  destruct Hv as (Henv & _). unfold IsProduction, IsDevelopment.
  destruct Henv as [-> | [-> | ->]]; simpl; split; try done;
    split; try done; intros [? ?]; discriminate.
Qed.

End Facts.

Lemma environment_predicates_witness :
  IsProduction sample_config && IsDevelopment sample_config = false
  /\ (IsProduction sample_config = false /\ IsDevelopment sample_config = false
      <-> Environment sample_config = "staging").
Proof.
  apply (environment_predicates sample_env sample_config). vm_compute. reflexivity.
Defined.

Lemma logLevel_of_loaded_witness :
  logLevel sample_config = "warn" <-> Environment sample_config = "production".
Proof.
  apply (logLevel_of_loaded sample_env sample_config). vm_compute. reflexivity.
Defined.

Lemma newServer_of_loaded_witness :
  Addr (newServer sample_config) = ":" +:+ getEnv sample_env "PORT" "8080"
  /\ ReadTimeout (newServer sample_config) = Timeout sample_config
  /\ WriteTimeout (newServer sample_config) = Timeout sample_config
  /\ Second <= ReadTimeout (newServer sample_config)
  /\ IdleTimeout (newServer sample_config) = 2 * Timeout sample_config
  /\ 2 * Second <= IdleTimeout (newServer sample_config).
Proof.
  apply (newServer_of_loaded sample_env sample_config); vm_compute; reflexivity.
Defined.

Lemma newServer_idle_wraps_witness :
  (exists cfg, fst (Load long_timeout_env) = Ok cfg
               /\ Timeout cfg = 2562047 * Hour
               /\ IdleTimeout (newServer cfg) < 0).
Proof.
  destruct (fst (Load long_timeout_env)) as [cfg|e] eqn:HL;
    [|vm_compute in HL; discriminate HL].
  exists cfg. split; [reflexivity|].
  assert (Ht : Timeout cfg = 2562047 * Hour).
  { vm_compute in HL. injection HL as <-. reflexivity. }
  split; [exact Ht|].
  apply (newServer_idle_wraps cfg). rewrite Ht. vm_compute. split; congruence.
Defined.

Lemma router_Use_of_loaded_witness :
  router_Use sample_config logger.New = main.middlewares logger.New.
Proof.
  apply (router_Use_of_loaded sample_env sample_config logger.New).
  vm_compute. reflexivity.
Defined.

End startup_props.

(** ** More on routing *)
Module routes_more.
Import main routes_spec routes_more_spec routes_props.

Lemma table_eq : flatten "" [] setupRoutes = table.
Proof. by vm_compute. Qed.

Lemma dispatch_Some method path r :
  dispatch setupRoutes method path = Some r ->
  In r table /\ route_matches method path r = true.
Proof. unfold dispatch. rewrite table_eq. apply find_some. Qed.

(** Every route of the table has the property, checked route by route. *)
Ltac each_route Hin :=
  unfold table in Hin; simpl in Hin;
  repeat (destruct Hin as [<- | Hin]; [|]); [..|contradiction].

Lemma no_route_to_Search method path r :
  dispatch setupRoutes method path = Some r -> target r <> productHandler_Search.
Proof.
  intros Hd Ht.
  pose proof (dispatch_Some _ _ _ Hd) as [Hin Hm].
  each_route Hin; try discriminate Ht.
  unfold route_matches in Hm. apply andb_prop in Hm as [Hp Hmeth].
  apply match_literal in Hp; [|reflexivity].
  unfold method_ok in Hmeth; simpl in Hmeth.
  rewrite orb_false_r in Hmeth. apply String.eqb_eq in Hmeth.
  simpl in Hp. subst method path. vm_compute in Hd. discriminate Hd.
Qed.

(** X12: [productHandler.Search] is never reached: its route
    [/products/search] is registered after [/products/{id}], which takes
    every request that would match it, so that a search request is served
    by [productHandler.GetByID]. *)
Theorem Search_unreachable method path r :
  dispatch setupRoutes method path = Some r ->
  target r <> productHandler_Search
  /\ serves "GET" "/api/v1/products/search" productHandler_GetByID.
Proof.
  intros Hd. split; [by eapply no_route_to_Search|by vm_compute].
Qed.

(** X20: every other handler that [setupRoutes] registers is reached by
    some request: [productHandler.Search] is the only one that is not. *)
Theorem reachable_handlers h :
  (exists method path, serves method path h) <-> h <> productHandler_Search.
Proof.
  split.
  - intros (method & path & Hs) ->. unfold serves in Hs.
    destruct (dispatch setupRoutes method path) as [r|] eqn:Hd; [|discriminate].
    simpl in Hs. injection Hs as Ht. by apply (no_route_to_Search _ _ _ Hd).
  - intros Hne. unfold serves. destruct h; try done.
    + by exists "GET", "/api/v1/health".
    + by exists "GET", "/api/v1/health/db".
    + by exists "GET", "/api/v1/health/ready".
    + by exists "GET", "/api/v1/products".
    + by exists "GET", "/api/v1/products/7".
    + by exists "GET", "/api/v1/products/category/amps".
    + by exists "GET", "/api/v1/categories".
    + by exists "POST", "/api/v1/admin/products".
    + by exists "PUT", "/api/v1/admin/products/7".
    + by exists "DELETE", "/api/v1/admin/products/7".
    + by exists "GET", "/api/v1/cart".
    + by exists "POST", "/api/v1/cart".
    + by exists "PUT", "/api/v1/cart/items/7".
    + by exists "DELETE", "/api/v1/cart/items/7".
    + by exists "DELETE", "/api/v1/cart/clear".
    + by exists "POST", "/api/v1/orders".
    + by exists "GET", "/api/v1/orders".
    + by exists "GET", "/api/v1/orders/42".
    + by exists "POST", "/api/v1/orders/42/cancel".
    + by exists "POST", "/api/v1/payments".
    + by exists "GET", "/api/v1/payments/42/status".
    + by exists "POST", "/api/v1/payments/callback".
    + by exists "GET", "/api/v1/payments/success".
    + by exists "GET", "/api/v1/payments/cancel".
    + by exists "GET", "/api/v1/".
    + by exists "GET", "/api/v1/nothing-here".
Qed.

Lemma Search_unreachable_witness :
  target (mkRoute "/api/v1/products/{id}" false ["GET"] [] productHandler_GetByID)
  <> productHandler_Search
  /\ serves "GET" "/api/v1/products/search" productHandler_GetByID.
Proof.
  apply (Search_unreachable "GET" "/api/v1/products/search"). vm_compute. reflexivity.
Defined.







(** X14: whatever the request, the handlers of the admin, cart and order
    subrouters and the payment creation and status handlers run behind the
    JWT middleware, the admin ones behind the admin role check after it, and
    every other handler, the payment callback among them, runs behind no
    middleware of [setupRoutes]. *)
Theorem auth_coverage method path r :
  dispatch setupRoutes method path = Some r ->
  (In middleware_Auth (chain r) <-> behind_auth (target r) = true)
  /\ (chain r = [middleware_Auth; middleware_RequireRole "admin"]
      <-> admin_only (target r) = true)
  /\ (behind_auth (target r) = true -> admin_only (target r) = false ->
      chain r = [middleware_Auth])
  /\ (behind_auth (target r) = false -> chain r = []).
Proof.
  intros Hd. apply dispatch_Some in Hd as [Hin _].
  each_route Hin; simpl;
    (split; [split; [intros H; try done; repeat (destruct H as [H|H]; try discriminate H)
                    |intros H; (discriminate H || tauto)]
            |split; [split; intros H; (discriminate H || done)
                    |split; intros H; try discriminate H; try done;
                     intros H'; try discriminate H'; done]]).
Qed.

Lemma auth_coverage_witness :
  let r := mkRoute "/api/v1/payments/callback" false ["POST"] []
                   paymentHandler_HandleCallback in
  (In middleware_Auth (chain r) <-> behind_auth (target r) = true)
  /\ (chain r = [middleware_Auth; middleware_RequireRole "admin"]
      <-> admin_only (target r) = true)
  /\ (behind_auth (target r) = true -> admin_only (target r) = false ->
      chain r = [middleware_Auth])
  /\ (behind_auth (target r) = false -> chain r = []).
Proof.
  apply (auth_coverage "POST" "/api/v1/payments/callback"). vm_compute. reflexivity.
Defined.









Example Cancel_route_check :
  serves "POST" "/api/v1/orders/42/cancel" orderHandler_Cancel
  /\ ~ serves "POST" "/api/v1/orders//cancel" orderHandler_Cancel
  /\ ~ serves "GET" "/api/v1/orders/42/cancel" orderHandler_Cancel.
Proof.
  repeat split; unfold serves; vm_compute; (reflexivity || discriminate).
Qed.

End routes_more.

(** ** More on logging *)
Module logger_more.
Import logger logger_spec logger_more_spec logger_props.

(** X18: logging keeps what was logged before and adds one line per
    call, in the order of the calls, whether a call goes through a method
    of a [Logger] or through a package-level function: the line is the
    level, a space, the message and a line feed. *)
Theorem log_all_appends calls std :
  outputs (log_all calls std) = (outputs std ++ map line calls)%list.
Proof.
  revert std. induction calls as [|[e msg] calls IH]; intros std; simpl.
  - by rewrite app_nil_r.
  - unfold log_all in *. simpl. rewrite IH, run_Println.
    unfold log_Println, line; simpl. rewrite <- app_assoc. simpl.
    by destruct e.
Qed.

Example log_all_sample :
  outputs (log_all [ (Method_Info New, "Starting application");
                     (Func_Error, "Database ping failed");
                     (Method_Debug New, "Server exited") ] fresh_std)
  = [ "INFO: Starting application" +:+ LF;
      "ERROR: Database ping failed" +:+ LF;
      "DEBUG: Server exited" +:+ LF ].
Proof. reflexivity. Qed.

End logger_more.
